(** * simple_dump.py: the fallback header inspector of the DDD reader

    A shallow embedding of [src/app/ddd-reader/tools/simple_dump.py]:
    the function [parse_ddd] and the [__main__] block, over an explicit
    model of the part of the Python runtime and of the file system they
    touch ([os.path.getsize], [os.path.basename], [open], [read],
    [bytes.hex], [json.dumps], [print], [sys.exit]).

    Conventions.
    - A Python [str] is a list of Unicode code points ([pystr]); source
      literals are written with [lit].
    - A Python [bytes] is a [list byte].
    - A Python [dict] with its insertion order is an association list.
    - Code that can raise runs in the monad [M]: a world is threaded
      through and an exception leaves the world as the failing
      operation left it (Python does not roll anything back).
    - [os.path] is [posixpath].
    - The size [stat] reports for a file and the bytes [read] delivers
      from it are separate facts about the file: they agree for an
      ordinary file on disk and differ for entries such as those under
      [/proc], whose [st_size] is 0 whatever they hold. *)

From Stdlib Require Import List ZArith NArith Bool Lia.
From Stdlib Require String Ascii DecimalString DecimalZ.
From Stdlib.Strings Require Import Byte.
Import ListNotations.
Import String.StringSyntax.

Local Open Scope string_scope.
Local Open Scope Z_scope.

(** ** Python values *)

Definition pystr := list N.

Definition lit (s : String.string) : pystr :=
  map Ascii.N_of_ascii (String.list_ascii_of_string s).

Definition bytes := list byte.

Inductive pyvalue : Type :=
| PyStr (s : pystr)
| PyInt (n : Z).

(** A dict literal, in insertion order. *)
Definition pydict := list (pystr * pyvalue).

Fixpoint pystr_eqb (a b : pystr) : bool :=
  match a, b with
  | [], [] => true
  | x :: a', y :: b' => N.eqb x y && pystr_eqb a' b'
  | _, _ => false
  end.

Fixpoint dict_get (k : pystr) (d : pydict) : option pyvalue :=
  match d with
  | [] => None
  | (k', v) :: d' => if pystr_eqb k k' then Some v else dict_get k d'
  end.

Definition dict_keys (d : pydict) : list pystr := map fst d.

(** ** [bytes.hex] *)

Definition hexdigit (n : N) : N :=
  (if n <? 10 then 48 + n else 87 + n)%N.

Definition byte_hex (b : byte) : pystr :=
  let n := Byte.to_N b in [hexdigit (n / 16); hexdigit (n mod 16)].

Definition bytes_hex (bs : bytes) : pystr := flat_map byte_hex bs.

(** The decoder the round trip is stated against: [bytes.fromhex] on
    input without white space. *)
Definition hexval (c : N) : option N :=
  (if (48 <=? c) && (c <=? 57) then Some (c - 48)
   else if (97 <=? c) && (c <=? 102) then Some (c - 87)
   else if (65 <=? c) && (c <=? 70) then Some (c - 55)
   else None)%N.

Fixpoint bytes_fromhex (s : pystr) : option bytes :=
  match s with
  | [] => Some []
  | hi :: lo :: s' =>
      match hexval hi, hexval lo, bytes_fromhex s' with
      | Some h, Some l, Some bs =>
          match Byte.of_N (16 * h + l) with
          | Some b => Some (b :: bs)
          | None => None
          end
      | _, _, _ => None
      end
  | [_] => None
  end.

(** A character [bytes.hex] may produce: [0-9a-f]. *)
Definition is_lower_hex (c : N) : bool :=
  ((48 <=? c) && (c <=? 57) || (97 <=? c) && (c <=? 102))%N.

(** ** [posixpath.basename]

<<
    sep = '/'
    i = p.rfind(sep) + 1
    return p[i:]
>> *)
Definition sep : N := 47%N.

Fixpoint rfind_from (i : Z) (c : N) (p : pystr) : Z :=
  match p with
  | [] => -1
  | x :: p' =>
      let r := rfind_from (i + 1) c p' in
      if 0 <=? r then r else if N.eqb x c then i else -1
  end.

(** [p.rfind(c)]: the highest index of [c] in [p], or [-1]. *)
Definition str_rfind (p : pystr) (c : N) : Z := rfind_from 0 c p.

Definition os_path_basename (p : pystr) : pystr :=
  let i := str_rfind p sep + 1 in
  skipn (Z.to_nat i) p.

(** ** [json.dumps]

    The encoder of the standard library with its defaults
    ([ensure_ascii=True]), on the values this program serializes: a
    dict whose keys are [str] and whose values are [str] or [int]. *)

Definition hex4 (n : N) : pystr :=
  [hexdigit (n / 4096 mod 16); hexdigit (n / 256 mod 16);
   hexdigit (n / 16 mod 16); hexdigit (n mod 16)]%N.

Definition backslash : N := 92%N.
Definition dquote : N := 34%N.
Definition newline : N := 10%N.

(** [py_encode_basestring_ascii], one character at a time: a double
    quote, a backslash and every character outside the range from
    space to tilde are replaced, following the table [ESCAPE_DCT]. *)
Definition json_escape (c : N) : pystr :=
  (if c =? dquote then [backslash; dquote]
   else if c =? backslash then [backslash; backslash]
   else if c =? 10 then [backslash; 110]
   else if c =? 13 then [backslash; 114]
   else if c =? 9 then [backslash; 116]
   else if c =? 12 then [backslash; 102]
   else if c =? 8 then [backslash; 98]
   else if (32 <=? c) && (c <=? 126) then [c]
   else if c <? 65536 then [backslash; 117] ++ hex4 c
   else
     let n := c - 65536 in
     let s1 := N.lor 55296 (N.land (N.shiftr n 10) 1023) in
     let s2 := N.lor 56320 (N.land n 1023) in
     [backslash; 117] ++ hex4 s1 ++ [backslash; 117] ++ hex4 s2)%N.

Definition json_str (s : pystr) : pystr :=
  [dquote] ++ flat_map json_escape s ++ [dquote].

(** [int.__repr__] *)
Definition int_repr (n : Z) : pystr :=
  lit (DecimalString.NilZero.string_of_int (Z.to_int n)).

Definition json_value (v : pyvalue) : pystr :=
  match v with
  | PyStr s => json_str s
  | PyInt n => int_repr n
  end.

Definition key_separator : pystr := lit ": ".

Definition json_item (kv : pystr * pyvalue) : pystr :=
  json_str (fst kv) ++ key_separator ++ json_value (snd kv).

Fixpoint join (sp : pystr) (l : list pystr) : pystr :=
  match l with
  | [] => []
  | [x] => x
  | x :: l' => x ++ sp ++ join sp l'
  end.

(** [_iterencode_dict]: without [indent] the items are separated by
    a comma and a space; with [indent=n] the item separator is a comma followed by a
    line break and [n] spaces, the first item is preceded by the same
    line break and the closing brace stands on a line of its own. *)
Definition json_dumps (indent : option nat) (d : pydict) : pystr :=
  match d with
  | [] => lit "{}"
  | _ =>
      match indent with
      | None => lit "{" ++ join (lit ", ") (map json_item d) ++ lit "}"
      | Some n =>
          let newline_indent := newline :: repeat 32%N n in
          lit "{" ++ newline_indent
            ++ join (lit "," ++ newline_indent) (map json_item d)
            ++ [newline] ++ lit "}"
      end
  end.

(** ** The world: file system and open files *)

(** What the program can catch.  Both are subclasses of [Exception];
    [text] is [str(e)]. *)
Inductive exn : Type :=
| OSError (errno : Z) (text : pystr)
| ValueError (text : pystr).

Definition exn_str (e : exn) : pystr :=
  match e with
  | OSError _ t => t
  | ValueError t => t
  end.

Definition ENOENT : Z := 2.
Definition EIO : Z := 5.
Definition EACCES : Z := 13.
Definition EISDIR : Z := 21.

(** What a path leads to. *)
Inductive node : Type :=
| Unreachable (errno : Z)
    (* [stat] and [open] fail: no entry, no search permission, ... *)
| Directory (st_size : N)
| Regular (st_size : N) (data : bytes) (open_errno read_errno : option Z).
    (* [st_size]: the size [stat] reports; [data]: the bytes reading
       delivers; [open_errno]: opening for reading fails (no read
       permission); [read_errno]: reading fails (I/O error) *)

Record open_file : Type := mk_open_file {
  of_data : bytes;
  of_pos : nat;
  of_read_errno : option Z
}.

Record world : Type := mk_world {
  fs : pystr -> node;
  (* [str(OSError(errno, strerror(errno), filename))] as the interpreter
     and the C library render it *)
  oserror_str : Z -> option pystr -> pystr;
  (* the text of the [ValueError] for a path with a NUL character and
     for an operation on a closed file *)
  valueerror_str : pystr;
  fds : list (nat * open_file)
}.

Definition set_fds (w : world) (t : list (nat * open_file)) : world :=
  mk_world (fs w) (oserror_str w) (valueerror_str w) t.

(** ** The monad of code that may raise *)

Definition M (A : Type) : Type := world -> (exn + A) * world.

Definition ret {A} (a : A) : M A := fun w => (inr a, w).

Definition raise {A} (e : exn) : M A := fun w => (inl e, w).

Definition bind {A B} (m : M A) (k : A -> M B) : M B :=
  fun w =>
    match m w with
    | (inr a, w') => k a w'
    | (inl e, w') => (inl e, w')
    end.

Notation "x <- m ;; k" := (bind m (fun x => k))
  (at level 61, m at next level, right associativity).

(** [try: body  except Exception as e: handler(e)] *)
Definition try_except {A} (body : M A) (handler : exn -> M A) : M A :=
  fun w =>
    match body w with
    | (inl e, w') => handler e w'
    | (inr a, w') => (inr a, w')
    end.

Definition raise_oserror {A} (errno : Z) (filename : option pystr) : M A :=
  fun w => raise (OSError errno (oserror_str w errno filename)) w.

Definition raise_valueerror {A} : M A :=
  fun w => raise (ValueError (valueerror_str w)) w.

(** Path resolution common to [stat] and [open]: a NUL character is
    refused before any system call, the empty path names nothing. *)
Definition has_nul (p : pystr) : bool := existsb (N.eqb 0) p.

Definition resolve (p : pystr) : M node :=
  fun w =>
    if has_nul p then raise_valueerror w
    else match p with
         | [] => raise_oserror ENOENT (Some p) w
         | _ => ret (fs w p) w
         end.

(** [os.path.getsize(p)]: [os.stat(p).st_size] *)
Definition os_path_getsize (p : pystr) : M Z :=
  n <- resolve p ;;
  match n with
  | Unreachable e => raise_oserror e (Some p)
  | Directory sz => ret (Z.of_N sz)
  | Regular sz _ _ _ => ret (Z.of_N sz)
  end.

Definition fresh_fd (t : list (nat * open_file)) : nat :=
  S (list_max (map fst t)).

(** [open(p, 'rb')] *)
Definition open_rb (p : pystr) : M nat :=
  n <- resolve p ;;
  match n with
  | Unreachable e => raise_oserror e (Some p)
  | Directory _ => raise_oserror EISDIR (Some p)
  | Regular _ _ (Some e) _ => raise_oserror e (Some p)
  | Regular _ data None rerr =>
      fun w =>
        let fd := fresh_fd (fds w) in
        (inr fd, set_fds w ((fd, mk_open_file data 0 rerr) :: fds w))
  end.

Fixpoint fd_lookup (fd : nat) (t : list (nat * open_file)) : option open_file :=
  match t with
  | [] => None
  | (k, f) :: t' => if Nat.eqb fd k then Some f else fd_lookup fd t'
  end.

Fixpoint fd_update (fd : nat) (f : open_file) (t : list (nat * open_file))
  : list (nat * open_file) :=
  match t with
  | [] => []
  | (k, g) :: t' =>
      if Nat.eqb fd k then (k, f) :: t' else (k, g) :: fd_update fd f t'
  end.

Fixpoint fd_remove (fd : nat) (t : list (nat * open_file))
  : list (nat * open_file) :=
  match t with
  | [] => []
  | (k, g) :: t' => if Nat.eqb fd k then t' else (k, g) :: fd_remove fd t'
  end.

(** [f.read(n)] on a buffered binary file: [n] bytes from the current
    position, fewer only at the end of the file. *)
Definition file_read (fd : nat) (n : nat) : M bytes :=
  fun w =>
    match fd_lookup fd (fds w) with
    | None => raise_valueerror w
    | Some f =>
        match of_read_errno f with
        | Some e => raise_oserror e None w
        | None =>
            let chunk := firstn n (skipn (of_pos f) (of_data f)) in
            let f' := mk_open_file (of_data f) (of_pos f + length chunk)
                                   (of_read_errno f) in
            (inr chunk, set_fds w (fd_update fd f' (fds w)))
        end
    end.

(** [f.close()]; closing twice is allowed. *)
Definition file_close (fd : nat) : M unit :=
  fun w => (inr tt, set_fds w (fd_remove fd (fds w))).

(** [with open(p, 'rb') as f: body(f)]: the file is closed on the way
    out, whether [body] returned or raised. *)
Definition with_open_rb {A} (p : pystr) (body : nat -> M A) : M A :=
  f <- open_rb p ;;
  fun w =>
    match body f w with
    | (r, w') => (r, snd (file_close f w'))
    end.

(** ** [parse_ddd] *)

Definition parse_ddd (filepath : pystr) : M pydict :=
  try_except
    (size <- os_path_getsize filepath ;;
     let filename := os_path_basename filepath in
     header_hex <- with_open_rb filepath (fun f =>
       header <- file_read f 16 ;;
       ret (bytes_hex header)) ;;
     ret [ (lit "title", PyStr (lit "Report from Python Parser"));
           (lit "filename", PyStr filename);
           (lit "format", PyStr (lit "DDD"));
           (lit "fileSize", PyInt size);
           (lit "headerHex", PyStr header_hex);
           (lit "message",
            PyStr (lit "This file was processed by the Python fallback parser.")) ])
    (fun e => ret [ (lit "error", PyStr (exn_str e)) ]).

(** ** The [__main__] block

    [sys.argv] holds the script name and then the arguments.  The
    process is observed through what it printed on standard output and
    its exit status: [sys.exit(1)] ends it with status 1, reaching the
    end of the script with status 0, an exception nobody caught with
    status 1 and a traceback on standard error. *)

Record process_result : Type := mk_result {
  stdout : pystr;
  exit_code : Z
}.

(** [print(s)] *)
Definition print (s : pystr) : pystr := s ++ [newline].

Definition main (argv : list pystr) (w : world) : process_result * world :=
  if (Z.of_nat (length argv) <? 2) then
    (mk_result
       (print (json_dumps None [ (lit "error", PyStr (lit "No file provided")) ]))
       1, w)
  else
    let filepath := nth 1 argv [] in
    match parse_ddd filepath w with
    | (inr result, w') =>
        (mk_result (print (json_dumps (Some 2%nat) result)) 0, w')
    | (inl _, w') => (mk_result [] 1, w')
    end.

(** ** A sample world *)

Definition sample_renderer (errno : Z) (filename : option pystr) : pystr :=
  lit "[Errno " ++ int_repr errno ++ lit "] "
    ++ match filename with
       | Some p => lit "OS error: '" ++ p ++ lit "'"
       | None => lit "OS error"
       end.

Definition sample_fs (p : pystr) : node :=
  if pystr_eqb p (lit "sample.ddd")
  then Regular 4 [x00; x01; x02; x03] None None
  else if pystr_eqb p (lit "/data/empty.ddd") then Regular 0 [] None None
  else if pystr_eqb p (lit "/data") then Directory 4096
  else if pystr_eqb p (lit "/data/secret.ddd")
  then Regular 1 [xff] (Some EACCES) None
  else if pystr_eqb p (lit "/data/broken.ddd")
  then Regular 1 [xff] None (Some EIO)
  else Unreachable ENOENT.

Definition sample_world : world :=
  mk_world sample_fs sample_renderer (lit "embedded null byte") [].

(** ** Shapes of the result *)

Definition success_result (filename : pystr) (size : Z) (header_hex : pystr)
  : pydict :=
  [ (lit "title", PyStr (lit "Report from Python Parser"));
    (lit "filename", PyStr filename);
    (lit "format", PyStr (lit "DDD"));
    (lit "fileSize", PyInt size);
    (lit "headerHex", PyStr header_hex);
    (lit "message",
     PyStr (lit "This file was processed by the Python fallback parser.")) ].

Definition failure_result (msg : pystr) : pydict :=
  [ (lit "error", PyStr msg) ].

Definition has_error (d : pydict) : Prop := In (lit "error") (dict_keys d).

(** [error] and nothing else. *)
Definition failure_shaped (d : pydict) : Prop :=
  exists msg, d = failure_result msg.

(** [n] fields, none of them [error]. *)
Definition success_shaped (n : nat) (d : pydict) : Prop :=
  length d = n /\ NoDup (dict_keys d) /\ ~ has_error d.

Definition success_keys : list pystr :=
  [ lit "title"; lit "filename"; lit "format"; lit "fileSize";
    lit "headerHex"; lit "message" ].

(** ** Files as the specification speaks of them *)

(** [p] names an existing file that can be opened and read, for which
    [stat] reports the size [st] and reading delivers [data]. *)
Definition file_at (w : world) (p : pystr) (st : N) (data : bytes) : Prop :=
  has_nul p = false /\ p <> [] /\ fs w p = Regular st data None None.

(** [p] names an existing file with content [data] that can be opened
    and read, whatever size [stat] reports for it. *)
Definition readable_file (w : world) (p : pystr) (data : bytes) : Prop :=
  exists st, file_at w p st data.

(** A world with an entry as the kernel keeps them under [/proc]: 29
    bytes to read, and a size of 0. *)
Definition proc_version : bytes :=
  [x4c; x69; x6e; x75; x78; x20; x76; x65; x72; x73; x69; x6f; x6e; x20;
   x36; x2e; x31; x2e; x30; x2d; x31; x33; x2d; x61; x6d; x64; x36; x34;
   x0a].

Definition proc_world : world :=
  mk_world
    (fun p => if pystr_eqb p (lit "/proc/version")
              then Regular 0 proc_version None None
              else Unreachable ENOENT)
    sample_renderer (lit "embedded null byte") [].


(** The body of the [with] statement of [parse_ddd]. *)
Definition read_header (f : nat) : M pystr :=
  header <- file_read f 16 ;; ret (bytes_hex header).

(** How an inspection went: the success case, or the exception the
    [except] clause received and the step that raised it. *)
Inductive inspection (p : pystr) (w : world) : pydict -> Prop :=
| insp_ok st data :
    file_at w p st data ->
    inspection p w (success_result (os_path_basename p)
                                   (Z.of_N st)
                                   (bytes_hex (firstn 16 data)))
| insp_stat e :
    os_path_getsize p w = (inl e, w) ->
    inspection p w (failure_result (exn_str e))
| insp_open sz e :
    os_path_getsize p w = (inr sz, w) ->
    with_open_rb p read_header w = (inl e, w) ->
    inspection p w (failure_result (exn_str e)).

(** ** The command line and the layout of its output *)

(** The line printed when no file is given. *)
Definition no_file_line : pystr :=
  lit "{" ++ [dquote] ++ lit "error" ++ [dquote] ++ lit ": "
    ++ [dquote] ++ lit "No file provided" ++ [dquote] ++ lit "}" ++ [newline].

(** Printable ASCII: from space to tilde. *)
Definition printable (c : N) : bool := ((32 <=? c) && (c <=? 126))%N.

(** [s.split('\n')] *)
Fixpoint split_lines (s : pystr) : list pystr :=
  match s with
  | [] => [[]]
  | c :: s' =>
      if (c =? newline)%N then [] :: split_lines s'
      else match split_lines s' with
           | l :: ls => (c :: l) :: ls
           | [] => [[c]]
           end
  end.

(** One line per item: two spaces, the item, and a comma after every
    item but the last. *)
Fixpoint pretty_lines (items : list pystr) : list pystr :=
  match items with
  | [] => []
  | [x] => [lit "  " ++ x]
  | x :: l => (lit "  " ++ x ++ lit ",") :: pretty_lines l
  end.

(** A second world, with the same file under another path. *)
Definition other_world : world :=
  mk_world
    (fun p => if pystr_eqb p (lit "/mnt/card/sample.ddd")
              then Regular 4 [x00; x01; x02; x03] None None
              else Unreachable EACCES)
    (fun _ _ => lit "failed") (lit "bad path") [].

(** ** Reading the output back

    What the consumer of the tool does with the text: the decoding half
    of the standard [json] module, as far as the objects printed here
    need it. *)

(** A character the output may hold: printable ASCII or a line break. *)
Definition ascii_text (c : N) : bool := printable c || (c =? newline)%N.

(** [int(esc, 16)] on the four characters of a [\uXXXX] escape. *)
Definition decode4 (h1 h2 h3 h4 : N) : option N :=
  match hexval h1, hexval h2, hexval h3, hexval h4 with
  | Some a, Some b, Some c, Some d => Some (((a * 16 + b) * 16 + c) * 16 + d)%N
  | _, _, _, _ => None
  end.

(** The table [BACKSLASH] of the decoder. *)
Definition unescape (esc : N) : option N :=
  (if esc =? dquote then Some dquote
   else if esc =? backslash then Some backslash
   else if esc =? 47 then Some 47
   else if esc =? 98 then Some 8
   else if esc =? 102 then Some 12
   else if esc =? 110 then Some 10
   else if esc =? 114 then Some 13
   else if esc =? 116 then Some 9
   else None)%N.

Definition is_high_surrogate (c : N) : bool :=
  ((55296 <=? c) && (c <=? 56319))%N.

Definition is_low_surrogate (c : N) : bool :=
  ((56320 <=? c) && (c <=? 57343))%N.

Definition push (c : N) (r : option (pystr * pystr)) : option (pystr * pystr) :=
  match r with
  | Some (s, rest) => Some (c :: s, rest)
  | None => None
  end.

(** [py_scanstring] in strict mode, started behind the opening quote:
    the decoded string and what follows the closing quote.  A
    [\uXXXX] escape of a high surrogate that is followed by the escape
    of a low surrogate is read together with it as one character. *)
Fixpoint scanstring (s : pystr) : option (pystr * pystr) :=
  match s with
  | [] => None
  | c :: r =>
      if (c =? dquote)%N then Some ([], r)
      else if (c =? backslash)%N then
        match r with
        | [] => None
        | esc :: r1 =>
            if (esc =? 117)%N then
              match r1 with
              | h1 :: h2 :: h3 :: h4 :: r5 =>
                  match decode4 h1 h2 h3 h4 with
                  | None => None
                  | Some uni =>
                      if is_high_surrogate uni then
                        match r5 with
                        | b :: u :: l1 :: l2 :: l3 :: l4 :: r11 =>
                            if (b =? backslash)%N && (u =? 117)%N then
                              match decode4 l1 l2 l3 l4 with
                              | None => None
                              | Some uni2 =>
                                  if is_low_surrogate uni2 then
                                    push (65536 + N.lor (N.shiftl (uni - 55296) 10)
                                                        (uni2 - 56320))%N
                                         (scanstring r11)
                                  else push uni (scanstring r5)
                              end
                            else push uni (scanstring r5)
                        | _ => push uni (scanstring r5)
                        end
                      else push uni (scanstring r5)
                  end
              | _ => None
              end
            else
              match unescape esc with
              | Some ch => push ch (scanstring r1)
              | None => None
              end
        end
      else if (c <? 32)%N then None
      else push c (scanstring r)
  end.

(** A code point that comes back from the output as it went in: one of
    Unicode and not a high surrogate, whose escape the decoder would
    pair with a low surrogate behind it. *)
Definition scalar_ok (c : N) : bool :=
  (c <? 1114112)%N && negb (is_high_surrogate c).

Definition is_digit (c : N) : bool := ((48 <=? c) && (c <=? 57))%N.

(** The digits at the head of [s], read as a number in base ten on
    top of [acc], and what follows them. *)
Fixpoint scan_digits (acc : Z) (s : pystr) : Z * pystr :=
  match s with
  | [] => (acc, [])
  | c :: r =>
      if is_digit c then scan_digits (10 * acc + Z.of_N (c - 48)) r
      else (acc, s)
  end.

(** An integer: an optional minus sign and at least one digit. *)
Definition scan_int (s : pystr) : option (Z * pystr) :=
  match s with
  | [] => None
  | c :: r =>
      if (c =? 45)%N then
        match r with
        | d :: _ =>
            if is_digit d then
              let (v, rest) := scan_digits 0 r in Some (- v, rest)
            else None
        | [] => None
        end
      else if is_digit c then Some (scan_digits 0 s)
      else None
  end.

(** White space between the tokens of a JSON text. *)
Definition is_ws (c : N) : bool :=
  ((c =? 32) || (c =? 10) || (c =? 13) || (c =? 9))%N.

Fixpoint skip_ws (s : pystr) : pystr :=
  match s with
  | [] => []
  | c :: r => if is_ws c then skip_ws r else s
  end.

(** A value of the kinds printed here: a string or an integer. *)
Definition scan_value (s : pystr) : option (pyvalue * pystr) :=
  match s with
  | [] => None
  | c :: r =>
      if (c =? dquote)%N then
        match scanstring r with
        | Some (v, rest) => Some (PyStr v, rest)
        | None => None
        end
      else
        match scan_int s with
        | Some (n, rest) => Some (PyInt n, rest)
        | None => None
        end
  end.

(** One member of an object: a string, a colon, a value. *)
Definition scan_item (s : pystr) : option ((pystr * pyvalue) * pystr) :=
  match s with
  | [] => None
  | c :: r =>
      if (c =? dquote)%N then
        match scanstring r with
        | Some (k, r1) =>
            match skip_ws r1 with
            | c2 :: r2 =>
                if (c2 =? 58)%N then
                  match scan_value (skip_ws r2) with
                  | Some (v, r3) => Some ((k, v), r3)
                  | None => None
                  end
                else None
            | [] => None
            end
        | None => None
        end
      else None
  end.

(** The members of an object up to its closing brace, [s] standing at
    the first of them; every member uses up one unit of [fuel]. *)
Fixpoint scan_items (fuel : nat) (s : pystr) : option (pydict * pystr) :=
  match fuel with
  | O => None
  | S fuel' =>
      match scan_item s with
      | Some (kv, r) =>
          match skip_ws r with
          | c :: r' =>
              if (c =? 44)%N then
                match scan_items fuel' (skip_ws r') with
                | Some (d, rest) => Some (kv :: d, rest)
                | None => None
                end
              else if (c =? 125)%N then Some ([kv], r')
              else None
          | [] => None
          end
      | None => None
      end
  end.

(** [json.loads] on a text that holds one object of strings and
    integers; the members are returned in the order of the text. *)
Definition json_loads (s : pystr) : option pydict :=
  match skip_ws s with
  | [] => None
  | c :: r =>
      if (c =? 123)%N then
        match skip_ws r with
        | [] => None
        | c' :: r' =>
            if (c' =? 125)%N then
              match skip_ws r' with
              | [] => Some []
              | _ => None
              end
            else
              match scan_items (length s) (c' :: r') with
              | Some (d, rest) =>
                  match skip_ws rest with
                  | [] => Some d
                  | _ => None
                  end
              | None => None
              end
        end
      else None
  end.

(** Every string of the dict is one that comes back as it went in. *)
Definition dict_ok (d : pydict) : bool :=
  forallb (fun kv => forallb scalar_ok (fst kv)
                     && match snd kv with
                        | PyStr s => forallb scalar_ok s
                        | PyInt _ => true
                        end) d.

(** Nothing to read as a digit at the head of [s]. *)
Definition no_digit_ahead (s : pystr) : bool :=
  match s with
  | [] => true
  | c :: _ => negb (is_digit c)
  end.

(** ** The text of the output, written out

    The two texts the tool can print for a result, character by
    character, for strings that need no escape. *)

(** A string between double quotes. *)
Definition quoted (s : pystr) : pystr := dquote :: s ++ [dquote].

(** A string [json.dumps] leaves as it is: printable ASCII without
    double quote and backslash. *)
Definition plain (s : pystr) : bool :=
  forallb (fun c => printable c && negb (c =? dquote)%N
                    && negb (c =? backslash)%N) s.

Definition failure_text (msg : pystr) : pystr :=
  lit "{" ++ [newline]
  ++ lit "  " ++ quoted (lit "error") ++ lit ": " ++ quoted msg ++ [newline]
  ++ lit "}" ++ [newline].

Definition success_text (fn : pystr) (sz : Z) (hx : pystr) : pystr :=
  lit "{" ++ [newline]
  ++ lit "  " ++ quoted (lit "title") ++ lit ": "
       ++ quoted (lit "Report from Python Parser") ++ lit "," ++ [newline]
  ++ lit "  " ++ quoted (lit "filename") ++ lit ": "
       ++ quoted fn ++ lit "," ++ [newline]
  ++ lit "  " ++ quoted (lit "format") ++ lit ": "
       ++ quoted (lit "DDD") ++ lit "," ++ [newline]
  ++ lit "  " ++ quoted (lit "fileSize") ++ lit ": "
       ++ int_repr sz ++ lit "," ++ [newline]
  ++ lit "  " ++ quoted (lit "headerHex") ++ lit ": "
       ++ quoted hx ++ lit "," ++ [newline]
  ++ lit "  " ++ quoted (lit "message") ++ lit ": "
       ++ quoted (lit "This file was processed by the Python fallback parser.")
       ++ [newline]
  ++ lit "}" ++ [newline].

(** * gen_icons.py: the icon generator

    The pixels are the business of the imaging library.  What the
    script decides is modelled: the drawing operations each icon
    issues on its drawing context, in order and with their arguments,
    and the directory and file each image goes to. *)

(** ** [posixpath.join] and [posixpath.dirname] *)

(** [s.rstrip(c)] *)
Fixpoint str_rstrip (c : N) (s : pystr) : pystr :=
  match s with
  | [] => []
  | x :: r =>
      match str_rstrip c r with
      | [] => if N.eqb x c then [] else [x]
      | r' => x :: r'
      end
  end.

Definition startswith_sep (b : pystr) : bool :=
  match b with
  | c :: _ => N.eqb c sep
  | [] => false
  end.

Definition endswith_sep (a : pystr) : bool :=
  match rev a with
  | c :: _ => N.eqb c sep
  | [] => false
  end.

(** [os.path.join(a, b)]:
<<
    if b.startswith(sep):               path = b
    elif not path or path.endswith(sep): path += b
    else:                                path += sep + b
>> *)
Definition os_path_join (a b : pystr) : pystr :=
  if startswith_sep b then b
  else if match a with [] => true | _ => false end || endswith_sep a
       then a ++ b
       else a ++ [sep] ++ b.

(** [os.path.dirname(p)]:
<<
    i = p.rfind(sep) + 1
    head = p[:i]
    if head and head != sep*len(head):
        head = head.rstrip(sep)
    return head
>> *)
Definition os_path_dirname (p : pystr) : pystr :=
  let i := str_rfind p sep + 1 in
  let head := firstn (Z.to_nat i) p in
  if match head with [] => false | _ => true end
     && negb (pystr_eqb head (repeat sep (length head)))
  then str_rstrip sep head
  else head.

(** ** Drawing *)

Definition rgba : Type := (Z * Z * Z * Z)%type.

Definition FG : rgba := (230, 230, 230, 255).

(** The calls on an [ImageDraw] object, with the library's defaults
    for the arguments a call leaves out ([fill=None], [outline=None],
    [width=1] for the shapes). *)
Inductive draw_op : Type :=
| rounded_rectangle (xy : list Z) (radius : Z)
                    (fill outline : option rgba) (width : Z)
| line (xy : list (Z * Z)) (fill : option rgba) (width : Z)
| ellipse (xy : list Z) (fill outline : option rgba) (width : Z)
| rectangle (xy : list Z) (fill outline : option rgba) (width : Z).

(** A drawing context is what has been drawn on it so far. *)
Definition draw_context : Type := list draw_op.

Definition icon_unknown (d : draw_context) (s : Z) : draw_context :=
  let pad := 3 in
  d ++ [ rounded_rectangle [pad; pad; s - pad; s - pad] 3 None (Some FG) 2;
         line [(9, 8); (12, 6); (15, 8)] (Some FG) 2;
         line [(15, 8); (15, 11); (12, 12)] (Some FG) 2;
         line [(12, 12); (12, 14)] (Some FG) 2;
         ellipse [11; 16; 13; 18] (Some FG) None 1 ].

Definition icon_rest (d : draw_context) (s : Z) : draw_context :=
  d ++ [ rectangle [4; 13; 20; 18] None (Some FG) 2;
         rectangle [4; 9; 8; 18] None (Some FG) 2;
         rectangle [9; 11; 13; 13] (Some FG) None 1 ].

Definition icon_work (d : draw_context) (s : Z) : draw_context :=
  d ++ [ line [(6, 18); (18, 6)] (Some FG) 3;
         line [(6, 6); (18, 18)] (Some FG) 3;
         rectangle [5; 17; 8; 20] (Some FG) None 1;
         rectangle [17; 5; 20; 8] (Some FG) None 1 ].

Definition icon_drive (d : draw_context) (s : Z) : draw_context :=
  d ++ [ ellipse [4; 4; 20; 20] None (Some FG) 2;
         ellipse [10; 10; 14; 14] None (Some FG) 2;
         line [(12, 12); (12, 6)] (Some FG) 2;
         line [(12, 12); (6, 14)] (Some FG) 2;
         line [(12, 12); (18, 14)] (Some FG) 2 ].

(** ** [save_icon]

    [save_icon] calls the imaging library and the operating system in
    a row and catches nothing: creating the image, the drawing calls
    of [draw_fn], [os.makedirs] and [img.save].  Each of them may
    raise, and the first that does ends [save_icon] before the calls
    that follow it.  Which calls raise is not for this script to say:
    the [environment] says it. *)

Record image : Type := mk_image {
  im_mode : pystr;
  im_size : Z * Z;
  im_color : rgba;
  im_drawn : draw_context
}.

(** What the script asks of the file system. *)
Inductive fs_action : Type :=
| makedirs (name : pystr) (exist_ok : bool)
| save (img : image) (path : pystr).

(** The calls of [save_icon] that can raise. *)
Inductive call : Type :=
| call_new                      (* [Image.new] and [ImageDraw.Draw] *)
| call_draw (op : draw_op)      (* a call of [draw_fn] on the context *)
| call_makedirs (name : pystr)
| call_save (path : pystr).

Record environment : Type := mk_environment {
  new_raises : Z -> bool;
  draw_raises : draw_op -> bool;
  makedirs_raises : pystr -> bool;
  save_raises : image -> pystr -> bool
}.

(** A run of [save_icon]: the requests to the file system that were
    carried out, in order, and the call that raised, if one did. *)
Record run : Type := mk_run {
  carried_out : list fs_action;
  raised : option call
}.

Definition save_icon (env : environment) (path : pystr)
           (draw_fn : draw_context -> Z -> draw_context) (s : Z) : run :=
  if new_raises env s then mk_run [] (Some call_new)
  else
    let img := mk_image (lit "RGBA") (s, s) (0, 0, 0, 0) [] in
    let d := draw_fn (im_drawn img) s in
    match find (draw_raises env) d with
    | Some op => mk_run [] (Some (call_draw op))
    | None =>
        let img := mk_image (im_mode img) (im_size img) (im_color img) d in
        let name := os_path_dirname path in
        if makedirs_raises env name
        then mk_run [] (Some (call_makedirs name))
        else if save_raises env img path
             then mk_run [makedirs name true] (Some (call_save path))
             else mk_run [makedirs name true; save img path] None
    end.

Definition OUT : pystr :=
  lit "/mnt/data/work/v3/src/renderer/src/assets/event-icons".

(** An environment in which nothing raises, and one that refuses, as
    the imaging library does, an image of negative size, a bounding
    box whose corners are not in order and a file of no pixels. *)
Definition quiet_environment : environment :=
  mk_environment (fun _ => false) (fun _ => false)
                 (fun _ => false) (fun _ _ => false).

Definition box_out_of_order (op : draw_op) : bool :=
  match op with
  | line _ _ _ => false
  | rounded_rectangle xy _ _ _ _ | ellipse xy _ _ _ | rectangle xy _ _ _ =>
      match xy with
      | [x0; y0; x1; y1] => (x1 <? x0) || (y1 <? y0)
      | _ => true
      end
  end.

Definition strict_environment : environment :=
  mk_environment (fun s => s <? 0) box_out_of_order
                 (fun _ => false)
                 (fun img _ => fst (im_size img) =? 0).

(** The points an operation is given. *)
Definition op_points (op : draw_op) : list (Z * Z) :=
  match op with
  | line xy _ _ => xy
  | rounded_rectangle xy _ _ _ _ | ellipse xy _ _ _ | rectangle xy _ _ _ =>
      match xy with
      | [x0; y0; x1; y1] => [(x0, y0); (x1, y1)]
      | _ => []
      end
  end.

(** The width of the stroke of an operation that strokes: a line, or
    a shape with an outline. *)
Definition op_stroke (op : draw_op) : option Z :=
  match op with
  | line _ _ w => Some w
  | rounded_rectangle _ _ _ (Some _) w | ellipse _ _ (Some _) w
  | rectangle _ _ (Some _) w => Some w
  | _ => None
  end.

(** A bounding box whose corners are in order. *)
Definition op_box_ordered (op : draw_op) : Prop :=
  match op with
  | line _ _ _ => True
  | rounded_rectangle xy _ _ _ _ | ellipse xy _ _ _ | rectangle xy _ _ _ =>
      match xy with
      | [x0; y0; x1; y1] => x0 <= x1 /\ y0 <= y1
      | _ => False
      end
  end.

Definition inside (s : Z) (pt : Z * Z) : Prop :=
  0 <= fst pt <= s - 1 /\ 0 <= snd pt <= s - 1.

(** Every point of every operation of the icon lies on a canvas of
    [s] by [s] pixels. *)
Definition fits (s : Z) (icon : draw_context -> Z -> draw_context) : Prop :=
  forall op pt, In op (icon [] s) -> In pt (op_points op) -> inside s pt.

Definition icons : list (draw_context -> Z -> draw_context) :=
  [icon_unknown; icon_rest; icon_work; icon_drive].

(** * Properties *)

(** ** The monad *)

Lemma bind_inr {A B} (m : M A) (k : A -> M B) w a w' :
  m w = (inr a, w') -> bind m k w = k a w'.
Proof. intros H. unfold bind. now rewrite H. Qed.

Lemma bind_inl {A B} (m : M A) (k : A -> M B) w e w' :
  m w = (inl e, w') -> bind m k w = (inl e, w').
Proof. intros H. unfold bind. now rewrite H. Qed.

Lemma try_except_inr {A} (body : M A) h w a w' :
  body w = (inr a, w') -> try_except body h w = (inr a, w').
Proof. intros H. unfold try_except. now rewrite H. Qed.

Lemma try_except_inl {A} (body : M A) h w e w' :
  body w = (inl e, w') -> try_except body h w = h e w'.
Proof. intros H. unfold try_except. now rewrite H. Qed.

(** ** The base name

    What [rfind] returns: [-1] when the character does not occur, and
    otherwise an index after which it does not occur any more. *)
Lemma rfind_from_spec c p : forall i,
  0 <= i ->
  (rfind_from i c p = -1 /\ existsb (N.eqb c) p = false) \/
  (i <= rfind_from i c p /\
   existsb (N.eqb c) (skipn (Z.to_nat (rfind_from i c p - i + 1)) p) = false).
Proof.
  induction p as [|x p' IH]; intros i Hi.
  - left. split; reflexivity.
  - cbn [rfind_from]. cbv zeta.
    destruct (IH (i + 1) ltac:(lia)) as [[Hr Hno]|[Hr Hno]].
    + rewrite Hr. change (0 <=? -1) with false. cbv iota.
      destruct (N.eqb_spec x c) as [->|Hx].
      * right. split; [lia|].
        replace (i - i + 1) with 1 by lia. exact Hno.
      * left. split; [reflexivity|].
        cbn [existsb]. rewrite Hno.
        destruct (N.eqb_spec c x); [congruence|reflexivity].
    + destruct (Z.leb_spec 0 (rfind_from (i + 1) c p')); [|lia].
      right. split; [lia|].
      replace (Z.to_nat (rfind_from (i + 1) c p' - i + 1))
        with (S (Z.to_nat (rfind_from (i + 1) c p' - (i + 1) + 1))) by lia.
      exact Hno.
Qed.

(** The base name has no directory component and ends the path. *)
Lemma os_path_basename_no_sep p :
  existsb (N.eqb sep) (os_path_basename p) = false.
Proof.
  unfold os_path_basename, str_rfind. cbv zeta.
  destruct (rfind_from_spec sep p 0 ltac:(lia)) as [[Hr Hno]|[Hr Hno]].
  - rewrite Hr. exact Hno.
  - rewrite Z.sub_0_r in Hno. exact Hno.
Qed.

Lemma os_path_basename_suffix p :
  exists dir, p = dir ++ os_path_basename p.
Proof.
  unfold os_path_basename. cbv zeta.
  eexists. symmetry. apply firstn_skipn.
Qed.

(** ** Path resolution, [stat] and [open] *)

Lemma resolve_nul p w :
  has_nul p = true -> resolve p w = (inl (ValueError (valueerror_str w)), w).
Proof. intros H. unfold resolve. now rewrite H. Qed.

Lemma resolve_empty w :
  resolve [] w = (inl (OSError ENOENT (oserror_str w ENOENT (Some []))), w).
Proof. reflexivity. Qed.

Lemma resolve_ok p w :
  has_nul p = false -> p <> [] -> resolve p w = (inr (fs w p), w).
Proof.
  intros Hn Hp. unfold resolve. rewrite Hn.
  destruct p as [|c p']; [congruence | reflexivity].
Qed.

(** After a successful resolution the operation goes on with the
    node. *)
Ltac resolved Hn Hp :=
  rewrite (bind_inr (resolve _) _ _ _ _ (resolve_ok _ _ Hn Hp)).

(** [resolve] never touches the world. *)
Lemma resolve_world p w : snd (resolve p w) = w.
Proof.
  unfold resolve. destruct (has_nul p); [reflexivity|].
  now destruct p.
Qed.

Lemma getsize_world p w : snd (os_path_getsize p w) = w.
Proof.
  unfold os_path_getsize, bind.
  pose proof (resolve_world p w) as H.
  destruct (resolve p w) as [[e|n] w']; simpl in H; subst w'; [reflexivity|].
  now destruct n.
Qed.

(** ** Open files *)

Lemma fd_lookup_head fd f t : fd_lookup fd ((fd, f) :: t) = Some f.
Proof. simpl. now rewrite Nat.eqb_refl. Qed.

Lemma fd_update_head fd f g t : fd_update fd g ((fd, f) :: t) = (fd, g) :: t.
Proof. simpl. now rewrite Nat.eqb_refl. Qed.

Lemma fd_remove_head fd f t : fd_remove fd ((fd, f) :: t) = t.
Proof. simpl. now rewrite Nat.eqb_refl. Qed.

Lemma open_rb_regular p w st data rerr :
  has_nul p = false -> p <> [] -> fs w p = Regular st data None rerr ->
  open_rb p w
  = (inr (fresh_fd (fds w)),
     set_fds w ((fresh_fd (fds w), mk_open_file data 0 rerr) :: fds w)).
Proof.
  intros Hn Hp Hf. unfold open_rb.
  resolved Hn Hp.
  now rewrite Hf.
Qed.

Lemma open_rb_fails p w :
  has_nul p = true \/ p = [] \/
  (exists e, fs w p = Unreachable e) \/ (exists sz, fs w p = Directory sz) \/
  (exists st data e rerr, fs w p = Regular st data (Some e) rerr) ->
  exists e, open_rb p w = (inl e, w).
Proof.
  intros H. unfold open_rb.
  destruct (has_nul p) eqn:Hn.
  { eexists. apply bind_inl. now apply resolve_nul. }
  destruct p as [|c p'].
  { eexists. apply bind_inl. apply resolve_empty. }
  rewrite (bind_inr (resolve (c :: p')) _ w (fs w (c :: p')) w)
    by (apply resolve_ok; congruence).
  destruct H as [H|[H|[[e H]|[[sz H]|(st & data & e & rerr & H)]]]];
    try discriminate; rewrite H; eexists; reflexivity.
Qed.

(** Reading [n] bytes from a file just opened on [data], then closing
    it: the first [n] bytes, and the table of open files as before. *)
Lemma with_open_read p w st data n :
  has_nul p = false -> p <> [] -> fs w p = Regular st data None None ->
  with_open_rb p (fun f => header <- file_read f n ;; ret (bytes_hex header)) w
  = (inr (bytes_hex (firstn n data)), w).
Proof.
  intros Hn Hp Hf. unfold with_open_rb.
  rewrite (bind_inr (open_rb p) _ w _ _ (open_rb_regular p w st data None Hn Hp Hf)).
  unfold bind, file_read.
  cbn [fds set_fds]. rewrite fd_lookup_head. cbn [of_read_errno of_pos of_data].
  rewrite fd_update_head. unfold ret, file_close. cbn [snd fds set_fds].
  rewrite fd_remove_head. cbn [fs oserror_str valueerror_str skipn].
  now destruct w.
Qed.

(** A read error inside the [with] block: the exception leaves the
    block and the file is closed all the same. *)
Lemma with_open_read_fault p w st data e n :
  has_nul p = false -> p <> [] -> fs w p = Regular st data None (Some e) ->
  with_open_rb p (fun f => header <- file_read f n ;; ret (bytes_hex header)) w
  = (inl (OSError e (oserror_str w e None)), w).
Proof.
  intros Hn Hp Hf. unfold with_open_rb.
  rewrite (bind_inr (open_rb p) _ w _ _ (open_rb_regular p w st data (Some e) Hn Hp Hf)).
  unfold bind, file_read.
  cbn [fds set_fds]. rewrite fd_lookup_head. cbn [of_read_errno of_pos of_data].
  unfold raise_oserror, raise, file_close. cbn [snd fds set_fds].
  rewrite fd_remove_head. cbn [fs oserror_str valueerror_str].
  now destruct w.
Qed.

Lemma with_open_fails {A} p (body : nat -> M A) w e :
  open_rb p w = (inl e, w) -> with_open_rb p body w = (inl e, w).
Proof. intros H. unfold with_open_rb. now apply bind_inl. Qed.

(** ** [parse_ddd], case by case *)

Lemma parse_ddd_stat_fails p w e w' :
  os_path_getsize p w = (inl e, w') ->
  parse_ddd p w = (inr (failure_result (exn_str e)), w').
Proof.
  intros H. unfold parse_ddd.
  erewrite try_except_inl; [reflexivity|].
  now apply bind_inl.
Qed.

Lemma parse_ddd_open_or_read_fails p w sz w1 e w2 :
  os_path_getsize p w = (inr sz, w1) ->
  with_open_rb p read_header w1 = (inl e, w2) ->
  parse_ddd p w = (inr (failure_result (exn_str e)), w2).
Proof.
  intros Hs Ho. unfold parse_ddd.
  erewrite try_except_inl; [reflexivity|].
  erewrite bind_inr by exact Hs.
  now apply bind_inl.
Qed.

Lemma parse_ddd_succeeds p w sz w1 hx w2 :
  os_path_getsize p w = (inr sz, w1) ->
  with_open_rb p read_header w1 = (inr hx, w2) ->
  parse_ddd p w = (inr (success_result (os_path_basename p) sz hx), w2).
Proof.
  intros Hs Ho. unfold parse_ddd.
  erewrite try_except_inr; [reflexivity|].
  erewrite bind_inr by exact Hs.
  erewrite bind_inr by exact Ho.
  reflexivity.
Qed.

Lemma getsize_regular p w st data oe re :
  has_nul p = false -> p <> [] -> fs w p = Regular st data oe re ->
  os_path_getsize p w = (inr (Z.of_N st), w).
Proof.
  intros Hn Hp Hf. unfold os_path_getsize.
  resolved Hn Hp.
  now rewrite Hf.
Qed.

Lemma getsize_directory p w sz :
  has_nul p = false -> p <> [] -> fs w p = Directory sz ->
  os_path_getsize p w = (inr (Z.of_N sz), w).
Proof.
  intros Hn Hp Hf. unfold os_path_getsize.
  resolved Hn Hp.
  now rewrite Hf.
Qed.

Lemma getsize_unreachable p w e :
  has_nul p = false -> p <> [] -> fs w p = Unreachable e ->
  os_path_getsize p w = (inl (OSError e (oserror_str w e (Some p))), w).
Proof.
  intros Hn Hp Hf. unfold os_path_getsize.
  resolved Hn Hp.
  now rewrite Hf.
Qed.

Lemma getsize_nul p w :
  has_nul p = true ->
  os_path_getsize p w = (inl (ValueError (valueerror_str w)), w).
Proof. intros H. apply bind_inl. now apply resolve_nul. Qed.

Lemma getsize_empty w :
  os_path_getsize [] w
  = (inl (OSError ENOENT (oserror_str w ENOENT (Some []))), w).
Proof. reflexivity. Qed.

Lemma parse_ddd_readable p w st data :
  file_at w p st data ->
  parse_ddd p w
  = (inr (success_result (os_path_basename p) (Z.of_N st)
                         (bytes_hex (firstn 16 data))), w).
Proof.
  intros (Hn & Hp & Hf).
  apply parse_ddd_succeeds with (w1 := w).
  - now apply getsize_regular with (data := data) (oe := None) (re := None).
  - now apply with_open_read with (st := st).
Qed.

Lemma open_rb_directory p w sz :
  has_nul p = false -> p <> [] -> fs w p = Directory sz ->
  open_rb p w = (inl (OSError EISDIR (oserror_str w EISDIR (Some p))), w).
Proof.
  intros Hn Hp Hf. unfold open_rb.
  resolved Hn Hp.
  now rewrite Hf.
Qed.

Lemma open_rb_denied p w st data e re :
  has_nul p = false -> p <> [] -> fs w p = Regular st data (Some e) re ->
  open_rb p w = (inl (OSError e (oserror_str w e (Some p))), w).
Proof.
  intros Hn Hp Hf. unfold open_rb.
  resolved Hn Hp.
  now rewrite Hf.
Qed.

Lemma parse_ddd_nul p w :
  has_nul p = true ->
  parse_ddd p w = (inr (failure_result (valueerror_str w)), w).
Proof.
  intros Hn. apply (parse_ddd_stat_fails p w _ _ (getsize_nul p w Hn)).
Qed.

Lemma parse_ddd_empty w :
  parse_ddd [] w
  = (inr (failure_result (oserror_str w ENOENT (Some []))), w).
Proof. apply (parse_ddd_stat_fails [] w _ _ (getsize_empty w)). Qed.

Lemma parse_ddd_unreachable p w e :
  has_nul p = false -> p <> [] -> fs w p = Unreachable e ->
  parse_ddd p w = (inr (failure_result (oserror_str w e (Some p))), w).
Proof.
  intros Hn Hp Hf.
  apply (parse_ddd_stat_fails p w _ _ (getsize_unreachable p w e Hn Hp Hf)).
Qed.

Lemma parse_ddd_directory p w sz :
  has_nul p = false -> p <> [] -> fs w p = Directory sz ->
  parse_ddd p w = (inr (failure_result (oserror_str w EISDIR (Some p))), w).
Proof.
  intros Hn Hp Hf.
  apply (parse_ddd_open_or_read_fails p w (Z.of_N sz) w
           (OSError EISDIR (oserror_str w EISDIR (Some p)))).
  - now apply getsize_directory.
  - apply with_open_fails. now apply open_rb_directory with (sz := sz).
Qed.

Lemma parse_ddd_denied p w st data e re :
  has_nul p = false -> p <> [] -> fs w p = Regular st data (Some e) re ->
  parse_ddd p w = (inr (failure_result (oserror_str w e (Some p))), w).
Proof.
  intros Hn Hp Hf.
  apply (parse_ddd_open_or_read_fails p w (Z.of_N st) w
           (OSError e (oserror_str w e (Some p)))).
  - now apply getsize_regular with (data := data) (oe := Some e) (re := re).
  - apply with_open_fails.
    now apply open_rb_denied with (st := st) (data := data) (re := re).
Qed.

Lemma parse_ddd_read_fault p w st data e :
  has_nul p = false -> p <> [] -> fs w p = Regular st data None (Some e) ->
  parse_ddd p w = (inr (failure_result (oserror_str w e None)), w).
Proof.
  intros Hn Hp Hf.
  apply (parse_ddd_open_or_read_fails p w (Z.of_N st) w
           (OSError e (oserror_str w e None))).
  - now apply getsize_regular with (data := data) (oe := None) (re := Some e).
  - now apply with_open_read_fault with (st := st) (data := data).
Qed.

(** Every call returns, leaves the world as it found it, and went one
    of the three ways. *)
Lemma parse_ddd_inspection p w :
  exists d, parse_ddd p w = (inr d, w) /\ inspection p w d.
Proof.
  destruct (has_nul p) eqn:Hn.
  { eexists; split; [eapply parse_ddd_stat_fails|eapply insp_stat];
      now apply getsize_nul. }
  destruct p as [|c p'].
  { eexists; split; [eapply parse_ddd_stat_fails|eapply insp_stat];
      apply getsize_empty. }
  assert (Hp : c :: p' <> []) by discriminate.
  destruct (fs w (c :: p')) as [e|sz|st data [e|] re] eqn:Hf.
  - eexists; split; [eapply parse_ddd_stat_fails|eapply insp_stat];
      eapply getsize_unreachable; eassumption.
  - destruct (open_rb_fails (c :: p') w) as [e He]; [eauto 6|].
    eexists; split;
      [eapply parse_ddd_open_or_read_fails|eapply insp_open];
      eauto using getsize_directory, with_open_fails.
  - destruct (open_rb_fails (c :: p') w) as [e' He]; [eauto 10|].
    eexists; split;
      [eapply parse_ddd_open_or_read_fails|eapply insp_open];
      eauto using getsize_regular, with_open_fails.
  - destruct re as [e|].
    + eexists; split;
        [eapply parse_ddd_open_or_read_fails|eapply insp_open];
        eauto using getsize_regular, with_open_read_fault.
    + assert (Hr : file_at w (c :: p') st data)
        by (repeat split; assumption).
      eexists; split; [apply parse_ddd_readable|apply insp_ok]; exact Hr.
Qed.


(** ** Hexadecimal encoding *)

Lemma bytes_fromhex_byte b s :
  bytes_fromhex (byte_hex b ++ s)
  = match bytes_fromhex s with
    | Some bs => Some (b :: bs)
    | None => None
    end.
Proof.
  destruct b; cbn; destruct (bytes_fromhex s); reflexivity.
Qed.

Lemma bytes_hex_roundtrip bs : bytes_fromhex (bytes_hex bs) = Some bs.
Proof.
  induction bs as [|b bs IH]; [reflexivity|].
  change (bytes_hex (b :: bs)) with (byte_hex b ++ bytes_hex bs).
  now rewrite bytes_fromhex_byte, IH.
Qed.

Lemma bytes_hex_length bs : length (bytes_hex bs) = (2 * length bs)%nat.
Proof.
  induction bs as [|b bs IH]; [reflexivity|].
  change (bytes_hex (b :: bs)) with (byte_hex b ++ bytes_hex bs).
  rewrite length_app, IH. simpl. lia.
Qed.

Lemma byte_hex_lower b : forallb is_lower_hex (byte_hex b) = true.
Proof. destruct b; reflexivity. Qed.

Lemma bytes_hex_lower bs : forallb is_lower_hex (bytes_hex bs) = true.
Proof.
  induction bs as [|b bs IH]; [reflexivity|].
  change (bytes_hex (b :: bs)) with (byte_hex b ++ bytes_hex bs).
  now rewrite forallb_app, byte_hex_lower, IH.
Qed.

Lemma firstn_min16 (data : bytes) :
  firstn (Z.to_nat (Z.min 16 (Z.of_nat (length data)))) data = firstn 16 data.
Proof.
  destruct (Z.le_ge_cases 16 (Z.of_nat (length data))) as [H|H].
  - now rewrite Z.min_l by exact H.
  - rewrite Z.min_r by lia. rewrite Nat2Z.id.
    rewrite firstn_all. symmetry. apply firstn_all2. lia.
Qed.

(** ** The specified properties *)

Lemma sample_file :
  file_at sample_world (lit "sample.ddd") 4 [x00; x01; x02; x03].
Proof. repeat split. discriminate. Qed.

Lemma sample_readable :
  readable_file sample_world (lit "sample.ddd") [x00; x01; x02; x03].
Proof. exists 4%N. exact sample_file. Qed.

Lemma proc_file : file_at proc_world (lit "/proc/version") 0 proc_version.
Proof. repeat split. discriminate. Qed.

(** C1, as the specification words it, does not hold.  The entry
    [/proc/version] exists and can be read; [stat] reports the size 0
    for it, so [fileSize] is 0, while [read] delivers its bytes, so
    [headerHex] has the 32 characters of the first 16 of them and not
    the [2 * min(16, fileSize) = 0] characters the claim asks for. *)
Lemma C1_stat_size_counterexample :
  readable_file proc_world (lit "/proc/version") proc_version /\
  exists d hx,
    parse_ddd (lit "/proc/version") proc_world = (inr d, proc_world) /\
    dict_get (lit "fileSize") d = Some (PyInt 0) /\
    dict_get (lit "headerHex") d = Some (PyStr hx) /\
    length hx = 32%nat /\
    Z.of_nat (length hx) <> 2 * Z.min 16 0 /\
    bytes_fromhex hx <> Some (firstn (Z.to_nat (Z.min 16 0)) proc_version).
Proof.
  split; [exists 0%N; exact proc_file|].
  eexists. eexists.
  split; [apply (parse_ddd_readable _ _ _ _ proc_file)|].
  split; [reflexivity|]. split; [reflexivity|].
  split; [reflexivity|]. split; discriminate.
Qed.

(** C1, amended. For an existing, readable file the [headerHex] field
    is the lowercase hexadecimal encoding of the first [min(16, n)]
    bytes of the file, [n] being the number of bytes reading it
    delivers: it is made of the characters [0-9a-f], its length is
    [2 * min(16, n)], decoding it gives back exactly those bytes, and
    for an empty file it is the empty string.  Where [fileSize] is
    [n], as for an ordinary file on disk, that is [min(16, fileSize)]. *)
Theorem C1_header_hex_roundtrip (w : world) (p : pystr) (data : bytes) :
  readable_file w p data ->
  exists d size hx,
    parse_ddd p w = (inr d, w) /\
    dict_get (lit "fileSize") d = Some (PyInt size) /\
    dict_get (lit "headerHex") d = Some (PyStr hx) /\
    let n := Z.of_nat (length data) in
    let prefix := firstn (Z.to_nat (Z.min 16 n)) data in
    hx = bytes_hex prefix /\
    forallb is_lower_hex hx = true /\
    Z.of_nat (length hx) = 2 * Z.min 16 n /\
    bytes_fromhex hx = Some prefix /\
    (data = [] -> hx = []) /\
    (size = n ->
     Z.of_nat (length hx) = 2 * Z.min 16 size /\
     bytes_fromhex hx = Some (firstn (Z.to_nat (Z.min 16 size)) data)).
Proof.
  intros [st Hr].
  exists (success_result (os_path_basename p) (Z.of_N st)
                         (bytes_hex (firstn 16 data))),
         (Z.of_N st), (bytes_hex (firstn 16 data)).
  split; [now apply parse_ddd_readable|].
  split; [reflexivity|]. split; [reflexivity|].
  cbv zeta. rewrite firstn_min16.
  assert (Hlen : Z.of_nat (length (bytes_hex (firstn 16 data)))
                 = 2 * Z.min 16 (Z.of_nat (length data))).
  { rewrite bytes_hex_length, length_firstn. lia. }
  split; [reflexivity|].
  split; [apply bytes_hex_lower|].
  split; [exact Hlen|].
  split; [apply bytes_hex_roundtrip|].
  split.
  - intros ->. reflexivity.
  - intros ->. rewrite firstn_min16.
    split; [exact Hlen|apply bytes_hex_roundtrip].
Qed.

Lemma C1_header_hex_roundtrip_witness :
  exists d size hx,
    parse_ddd (lit "/proc/version") proc_world = (inr d, proc_world) /\
    dict_get (lit "fileSize") d = Some (PyInt size) /\
    dict_get (lit "headerHex") d = Some (PyStr hx) /\
    let n := Z.of_nat (length proc_version) in
    let prefix := firstn (Z.to_nat (Z.min 16 n)) proc_version in
    hx = bytes_hex prefix /\
    forallb is_lower_hex hx = true /\
    Z.of_nat (length hx) = 2 * Z.min 16 n /\
    bytes_fromhex hx = Some prefix /\
    (proc_version = [] -> hx = []) /\
    (size = n ->
     Z.of_nat (length hx) = 2 * Z.min 16 size /\
     bytes_fromhex hx = Some (firstn (Z.to_nat (Z.min 16 size)) proc_version)).
Proof.
  apply (C1_header_hex_roundtrip proc_world (lit "/proc/version")).
  exists 0%N. repeat split. discriminate.
Defined.

(** C2, as the specification words it, does not hold: for
    [/proc/version] the [fileSize] field is 0, the size [stat]
    reports, while the file has 29 bytes. *)
Lemma C2_stat_size_counterexample :
  readable_file proc_world (lit "/proc/version") proc_version /\
  exists d,
    parse_ddd (lit "/proc/version") proc_world = (inr d, proc_world) /\
    dict_get (lit "fileSize") d = Some (PyInt 0) /\
    Z.of_nat (length proc_version) = 29 /\
    dict_get (lit "fileSize") d
    <> Some (PyInt (Z.of_nat (length proc_version))).
Proof.
  split; [exists 0%N; exact proc_file|].
  eexists.
  split; [apply (parse_ddd_readable _ _ _ _ proc_file)|].
  split; [reflexivity|]. split; [reflexivity|]. discriminate.
Qed.

(** C2, amended. For an existing, readable file the [fileSize] field
    is the size [stat] reports for the file at the time of the
    inspection, which is what [os.path.getsize] returns: a
    non-negative integer.  It is the number of bytes of the file
    where the reported size is the length of the content, as for an
    ordinary file on disk. *)
Theorem C2_file_size (w : world) (p : pystr) (st : N) (data : bytes) :
  file_at w p st data ->
  exists d size,
    parse_ddd p w = (inr d, w) /\
    dict_get (lit "fileSize") d = Some (PyInt size) /\
    os_path_getsize p w = (inr size, w) /\
    size = Z.of_N st /\
    0 <= size /\
    (st = N.of_nat (length data) -> size = Z.of_nat (length data)).
Proof.
  intros Hr.
  exists (success_result (os_path_basename p) (Z.of_N st)
                         (bytes_hex (firstn 16 data))),
         (Z.of_N st).
  split; [now apply parse_ddd_readable|].
  split; [reflexivity|].
  split.
  { destruct Hr as (Hn & Hp & Hf).
    now apply getsize_regular with (data := data) (oe := None) (re := None). }
  split; [reflexivity|]. split; [lia|].
  intros ->. lia.
Qed.

Lemma C2_file_size_witness :
  exists d size,
    parse_ddd (lit "sample.ddd") sample_world = (inr d, sample_world) /\
    dict_get (lit "fileSize") d = Some (PyInt size) /\
    os_path_getsize (lit "sample.ddd") sample_world = (inr size, sample_world) /\
    size = 4 /\
    0 <= size /\
    (4%N = N.of_nat (length [x00; x01; x02; x03]) ->
     size = Z.of_nat (length [x00; x01; x02; x03])).
Proof.
  apply (C2_file_size sample_world (lit "sample.ddd") 4 [x00; x01; x02; x03]).
  repeat split. discriminate.
Defined.



(** ** The two shapes *)

Lemma failure_has_error msg : has_error (failure_result msg).
Proof. left. reflexivity. Qed.

Lemma success_no_error fn sz hx : ~ has_error (success_result fn sz hx).
Proof.
  unfold has_error. cbv [success_result dict_keys map fst In].
  vm_compute. intuition discriminate.
Qed.

Lemma success_keys_nodup : NoDup success_keys.
Proof.
  vm_compute.
  repeat (constructor; [cbv [In]; intuition discriminate|]).
  constructor.
Qed.

Lemma success_is_six fn sz hx : success_shaped 6 (success_result fn sz hx).
Proof.
  split; [reflexivity|]. split.
  - exact success_keys_nodup.
  - apply success_no_error.
Qed.

Lemma inspection_shapes p w d :
  inspection p w d ->
  (exists fn sz hx, d = success_result fn sz hx) \/
  (exists msg, d = failure_result msg).
Proof. intros [st data Hr|e He|sz e Hs Ho]; eauto. Qed.

Lemma parse_ddd_shapes p w d w' :
  parse_ddd p w = (inr d, w') ->
  (exists fn sz hx, d = success_result fn sz hx) \/
  (exists msg, d = failure_result msg).
Proof.
  intros H. destruct (parse_ddd_inspection p w) as (d0 & Hd & Hi).
  assert (d0 = d) by congruence. subst d0.
  now apply inspection_shapes with (p := p) (w := w).
Qed.

Lemma parse_ddd_no_error p w d w' :
  parse_ddd p w = (inr d, w') -> ~ has_error d ->
  exists fn sz hx, d = success_result fn sz hx.
Proof.
  intros H Hn. destruct (parse_ddd_shapes p w d w' H) as [Hs|[msg ->]].
  - exact Hs.
  - destruct Hn. apply failure_has_error.
Qed.

(** C4, as the specification words it, does not hold: the result for
    the four-byte file [sample.ddd] has six fields, so it is neither a
    five-field success nor a failure. *)
Lemma C4_five_fields_counterexample :
  exists d,
    parse_ddd (lit "sample.ddd") sample_world = (inr d, sample_world) /\
    length d = 6%nat /\
    ~ (success_shaped 5 d \/ failure_shaped d).
Proof.
  eexists. split; [apply (parse_ddd_readable _ _ _ _ sample_file)|].
  split; [reflexivity|].
  intros [(Hlen & _)|[msg Hm]]; discriminate.
Qed.

(** C4, amended. Every result of [parse_ddd] has exactly one of two
    shapes: the six fields [title], [filename], [format], [fileSize],
    [headerHex], [message] in this order and no [error] field, or the
    [error] field alone. *)
Theorem C4_two_shapes (p : pystr) (w : world) :
  exists d,
    parse_ddd p w = (inr d, w) /\
    ((dict_keys d = success_keys /\ success_shaped 6 d /\ ~ failure_shaped d)
     \/
     (failure_shaped d /\ dict_keys d = [lit "error"] /\
      forall n, ~ success_shaped n d)).
Proof.
  destruct (parse_ddd_inspection p w) as (d & Hd & Hi).
  exists d. split; [exact Hd|].
  destruct (inspection_shapes p w d Hi) as [(fn & sz & hx & ->)|[msg ->]].
  - left. split; [reflexivity|]. split; [apply success_is_six|].
    intros [msg Hm]. discriminate.
  - right. split; [now exists msg|]. split; [reflexivity|].
    intros n (_ & _ & Hn). apply Hn, failure_has_error.
Qed.

(** C5. A successful inspection always carries the format tag [DDD];
    two readable files that agree on the base name of their paths, on
    their size (the one [stat] reports, which for ordinary files is
    the length of the content) and on their first 16 bytes give the
    same result, whatever else they hold; and the one [read] of the
    inspection returns the first 16 bytes at most and leaves the file
    position at 16 or before.  The last part is the second for
    ordinary files, whose size is the length of their content. *)
Theorem C5_prefix_only :
  (forall p w d w',
      parse_ddd p w = (inr d, w') -> ~ has_error d ->
      dict_get (lit "format") d = Some (PyStr (lit "DDD"))) /\
  (forall p1 w1 st1 data1 p2 w2 st2 data2,
      file_at w1 p1 st1 data1 -> file_at w2 p2 st2 data2 ->
      os_path_basename p1 = os_path_basename p2 ->
      st1 = st2 ->
      firstn 16 data1 = firstn 16 data2 ->
      fst (parse_ddd p1 w1) = fst (parse_ddd p2 w2)) /\
  (forall p w data,
      readable_file w p data ->
      exists f w1 header w2 o,
        open_rb p w = (inr f, w1) /\
        file_read f 16 w1 = (inr header, w2) /\
        header = firstn 16 data /\
        fd_lookup f (fds w2) = Some o /\
        (of_pos o <= 16)%nat) /\
  (forall p1 w1 data1 p2 w2 data2,
      file_at w1 p1 (N.of_nat (length data1)) data1 ->
      file_at w2 p2 (N.of_nat (length data2)) data2 ->
      os_path_basename p1 = os_path_basename p2 ->
      length data1 = length data2 ->
      firstn 16 data1 = firstn 16 data2 ->
      fst (parse_ddd p1 w1) = fst (parse_ddd p2 w2)).
Proof.
  split; [|split; [|split]].
  - intros p w d w' H Hn.
    destruct (parse_ddd_no_error p w d w' H Hn) as (fn & sz & hx & ->).
    reflexivity.
  - intros p1 w1 st1 data1 p2 w2 st2 data2 H1 H2 Hb Hl Hf.
    rewrite (parse_ddd_readable p1 w1 st1 data1 H1).
    rewrite (parse_ddd_readable p2 w2 st2 data2 H2).
    cbn [fst]. now rewrite Hb, Hl, Hf.
  - intros p w data (st & Hn & Hp & Hf).
    do 5 eexists.
    split; [apply (open_rb_regular p w st data None Hn Hp Hf)|].
    unfold file_read. cbn [fds set_fds]. rewrite fd_lookup_head.
    cbn [of_read_errno of_pos of_data skipn].
    split; [reflexivity|]. split; [reflexivity|].
    cbn [fds set_fds]. rewrite fd_update_head, fd_lookup_head.
    split; [reflexivity|].
    cbn [of_pos]. rewrite length_firstn. lia.
  - intros p1 w1 data1 p2 w2 data2 H1 H2 Hb Hl Hf.
    rewrite (parse_ddd_readable p1 w1 _ data1 H1).
    rewrite (parse_ddd_readable p2 w2 _ data2 H2).
    cbn [fst]. now rewrite Hb, Hl, Hf.
Qed.

Lemma C5_prefix_only_witness :
  dict_get (lit "format")
           (success_result (lit "sample.ddd") 4 (lit "00010203"))
  = Some (PyStr (lit "DDD")) /\
  fst (parse_ddd (lit "sample.ddd") sample_world)
  = fst (parse_ddd (lit "/mnt/card/sample.ddd") other_world).
Proof.
  destruct C5_prefix_only as (Hfmt & Hsame & _).
  split.
  - apply (Hfmt (lit "sample.ddd") sample_world _ sample_world).
    + reflexivity.
    + vm_compute. intuition discriminate.
  - apply (Hsame (lit "sample.ddd") sample_world 4%N [x00; x01; x02; x03]
                 (lit "/mnt/card/sample.ddd") other_world
                 4%N [x00; x01; x02; x03]).
    + repeat split. discriminate.
    + repeat split. discriminate.
    + reflexivity.
    + reflexivity.
    + reflexivity.
Defined.

(** ** The command line *)

(** C6. Without an argument the tool prints the JSON object whose only
    field is [error] with the text [No file provided], and exits with
    status 1. *)
Theorem C6_no_argument (argv : list pystr) (w : world) :
  (length argv < 2)%nat ->
  main argv w = (mk_result no_file_line 1, w) /\
  no_file_line = print (json_dumps None (failure_result (lit "No file provided"))).
Proof.
  intros H. split; [|reflexivity].
  unfold main. destruct (Z.ltb_spec (Z.of_nat (length argv)) 2); [|lia].
  reflexivity.
Qed.

Lemma C6_no_argument_witness :
  main [lit "simple_dump.py"] sample_world
  = (mk_result no_file_line 1, sample_world) /\
  no_file_line = print (json_dumps None (failure_result (lit "No file provided"))).
Proof.
  apply (C6_no_argument [lit "simple_dump.py"] sample_world). simpl. lia.
Defined.

(** C8. An inspection leaves the world as it found it, so a second
    inspection of the same path right after the first gives the same
    result; and the result depends on the world only through what the
    path leads to and how the runtime words its errors, not on the
    files that are open or on any other entry of the file system. *)
Theorem C8_idempotent_stateless :
  (forall p w,
      exists d,
        (r1 <- parse_ddd p ;; r2 <- parse_ddd p ;; ret (r1, r2)) w
        = (inr (d, d), w)) /\
  (forall p w1 w2,
      fs w1 p = fs w2 p ->
      oserror_str w1 = oserror_str w2 ->
      valueerror_str w1 = valueerror_str w2 ->
      fst (parse_ddd p w1) = fst (parse_ddd p w2)).
Proof.
  split.
  - intros p w. destruct (parse_ddd_inspection p w) as (d & Hd & _).
    exists d. unfold bind. rewrite Hd, Hd. reflexivity.
  - intros p w1 w2 Hfs Hos Hve.
    destruct (has_nul p) eqn:Hn.
    { rewrite !parse_ddd_nul by exact Hn. cbn [fst]. now rewrite Hve. }
    destruct p as [|c p'].
    { rewrite !parse_ddd_empty. cbn [fst]. now rewrite Hos. }
    assert (Hp : c :: p' <> []) by discriminate.
    destruct (fs w2 (c :: p')) as [e|sz|st data [e|] [e'|]] eqn:Hf2.
    + rewrite (parse_ddd_unreachable _ w1 e Hn Hp Hfs).
      rewrite (parse_ddd_unreachable _ w2 e Hn Hp Hf2).
      cbn [fst]. now rewrite Hos.
    + rewrite (parse_ddd_directory _ w1 sz Hn Hp Hfs).
      rewrite (parse_ddd_directory _ w2 sz Hn Hp Hf2).
      cbn [fst]. now rewrite Hos.
    + rewrite (parse_ddd_denied _ w1 st data e _ Hn Hp Hfs).
      rewrite (parse_ddd_denied _ w2 st data e _ Hn Hp Hf2).
      cbn [fst]. now rewrite Hos.
    + rewrite (parse_ddd_denied _ w1 st data e _ Hn Hp Hfs).
      rewrite (parse_ddd_denied _ w2 st data e _ Hn Hp Hf2).
      cbn [fst]. now rewrite Hos.
    + rewrite (parse_ddd_read_fault _ w1 st data e' Hn Hp Hfs).
      rewrite (parse_ddd_read_fault _ w2 st data e' Hn Hp Hf2).
      cbn [fst]. now rewrite Hos.
    + rewrite (parse_ddd_readable _ w1 st data (conj Hn (conj Hp Hfs))).
      rewrite (parse_ddd_readable _ w2 st data (conj Hn (conj Hp Hf2))).
      reflexivity.
Qed.

Lemma C8_idempotent_stateless_witness :
  fst (parse_ddd (lit "/data/secret.ddd") sample_world)
  = fst (parse_ddd (lit "/data/secret.ddd")
           (set_fds sample_world [(7%nat, mk_open_file [x41] 1 None)])).
Proof.
  destruct C8_idempotent_stateless as (_ & H).
  apply H; reflexivity.
Defined.

(** C9. Every successful inspection has the title
    [Report from Python Parser] and the message
    [This file was processed by the Python fallback parser.],
    whatever the file. *)
Theorem C9_title_and_message (p : pystr) (w w' : world) (d : pydict) :
  parse_ddd p w = (inr d, w') -> ~ has_error d ->
  dict_get (lit "title") d = Some (PyStr (lit "Report from Python Parser")) /\
  dict_get (lit "message") d
  = Some (PyStr (lit "This file was processed by the Python fallback parser.")).
Proof.
  intros H Hn.
  destruct (parse_ddd_no_error p w d w' H Hn) as (fn & sz & hx & ->).
  split; reflexivity.
Qed.

Lemma C9_title_and_message_witness :
  dict_get (lit "title")
           (success_result (lit "empty.ddd") 0 [])
  = Some (PyStr (lit "Report from Python Parser")) /\
  dict_get (lit "message")
           (success_result (lit "empty.ddd") 0 [])
  = Some (PyStr (lit "This file was processed by the Python fallback parser.")).
Proof.
  apply (C9_title_and_message (lit "/data/empty.ddd") sample_world sample_world).
  - reflexivity.
  - vm_compute. intuition discriminate.
Defined.

(** C10. With two or more arguments the output, the exit status and
    the world left behind are those of the invocation with the first
    argument alone: the script name and every later argument are
    ignored. *)
Theorem C10_extra_arguments_ignored
        (prog prog' filepath : pystr) (rest rest' : list pystr) (w : world) :
  main (prog :: filepath :: rest) w = main (prog' :: filepath :: rest') w /\
  main (prog :: filepath :: rest) w = main [prog; filepath] w.
Proof.
  unfold main. cbn [nth].
  assert (H : forall (a b : pystr) l,
             (Z.of_nat (length (a :: b :: l)) <? 2) = false).
  { intros a b l. apply Z.ltb_ge. cbn [length]. lia. }
  rewrite !H. split; reflexivity.
Qed.

(** ** The layout of the pretty-printed output *)

Lemma hexdigit_printable n : (n < 16)%N -> printable (hexdigit n) = true.
Proof.
  intros H. unfold printable, hexdigit.
  destruct (N.ltb_spec n 10); apply andb_true_iff; split; apply N.leb_le; lia.
Qed.

Lemma hex4_printable n : forallb printable (hex4 n) = true.
Proof.
  unfold hex4. cbn [forallb].
  rewrite !hexdigit_printable; [reflexivity| | | |];
    apply N.mod_lt; discriminate.
Qed.

Lemma json_escape_printable c : forallb printable (json_escape c) = true.
Proof.
  unfold json_escape.
  repeat match goal with
         | |- context [if (c =? ?k)%N then _ else _] =>
             destruct (c =? k)%N; [reflexivity|]
         end.
  destruct ((32 <=? c)%N && (c <=? 126)%N) eqn:Hp.
  { cbn [forallb]. unfold printable. now rewrite Hp. }
  destruct (c <? 65536)%N.
  - rewrite forallb_app, hex4_printable. reflexivity.
  - cbv zeta. rewrite !forallb_app, !hex4_printable. reflexivity.
Qed.

Lemma json_str_printable s : forallb printable (json_str s) = true.
Proof.
  unfold json_str. rewrite !forallb_app.
  assert (H : forallb printable (flat_map json_escape s) = true).
  { induction s as [|c s IH]; [reflexivity|].
    cbn [flat_map]. now rewrite forallb_app, json_escape_printable, IH. }
  rewrite H. reflexivity.
Qed.

Lemma uint_printable d :
  forallb printable (lit (DecimalString.NilEmpty.string_of_uint d)) = true.
Proof. induction d; [reflexivity|..]; cbn; exact IHd. Qed.

Lemma uint_zero_printable d :
  forallb printable (lit (DecimalString.NilZero.string_of_uint d)) = true.
Proof. destruct d; [reflexivity|..]; apply (uint_printable (_ d)). Qed.

Lemma int_repr_printable n : forallb printable (int_repr n) = true.
Proof.
  unfold int_repr, DecimalString.NilZero.string_of_int.
  destruct (Z.to_int n) as [d|d].
  - apply uint_zero_printable.
  - change (forallb printable
              (45%N :: lit (DecimalString.NilZero.string_of_uint d)) = true).
    cbn [forallb]. apply uint_zero_printable.
Qed.

Lemma printable_not_newline s :
  forallb printable s = true ->
  forallb (fun c => negb (c =? newline)%N) s = true.
Proof.
  intros H. rewrite forallb_forall in *. intros c Hc.
  specialize (H c Hc). unfold printable in H.
  apply andb_true_iff in H. destruct H as [H _]. apply N.leb_le in H.
  apply negb_true_iff, N.eqb_neq. unfold newline. lia.
Qed.

Lemma json_item_printable kv : forallb printable (json_item kv) = true.
Proof.
  unfold json_item. rewrite !forallb_app, json_str_printable.
  destruct kv as [k [s|n]]; cbn [snd json_value].
  - now rewrite json_str_printable.
  - now rewrite int_repr_printable.
Qed.

Lemma split_lines_app a b :
  forallb printable a = true ->
  split_lines (a ++ newline :: b) = a :: split_lines b.
Proof.
  intros H. apply printable_not_newline in H.
  induction a as [|c a IH].
  - cbn [app split_lines]. now rewrite N.eqb_refl.
  - cbn [forallb] in H. apply andb_true_iff in H. destruct H as [Hc Ha].
    cbn [app split_lines]. apply negb_true_iff in Hc. rewrite Hc.
    now rewrite (IH Ha).
Qed.

Lemma split_lines_items (items : list pystr) :
  items <> [] ->
  Forall (fun x => forallb printable x = true) items ->
  split_lines (lit "  " ++ join (lit "," ++ newline :: lit "  ") items
                 ++ [newline] ++ lit "}")
  = pretty_lines items ++ [lit "}"].
Proof.
  induction items as [|x l IH]; [congruence|].
  intros _ Hall. inversion Hall as [|? ? Hx Hl]; subst.
  destruct l as [|y l].
  - cbn [join pretty_lines]. rewrite app_assoc.
    change ([newline] ++ lit "}") with (newline :: lit "}").
    rewrite split_lines_app.
    + reflexivity.
    + rewrite forallb_app, Hx. reflexivity.
  - change (join (lit "," ++ newline :: lit "  ") (x :: y :: l))
      with (x ++ (lit "," ++ newline :: lit "  ")
              ++ join (lit "," ++ newline :: lit "  ") (y :: l)).
    change (pretty_lines (x :: y :: l))
      with ((lit "  " ++ x ++ lit ",") :: pretty_lines (y :: l)).
    change (((lit "  " ++ x ++ lit ",") :: pretty_lines (y :: l)) ++ [lit "}"])
      with ((lit "  " ++ x ++ lit ",") :: (pretty_lines (y :: l) ++ [lit "}"])).
    rewrite <- (IH ltac:(discriminate) Hl).
    rewrite <- split_lines_app.
    + f_equal. rewrite <- !app_assoc. cbn [app]. reflexivity.
    + rewrite !forallb_app, Hx. reflexivity.
Qed.

(** With [indent=2] a dict that is not empty is printed as an opening
    brace, one line per item indented by two spaces, and a closing
    brace. *)
Lemma json_dumps_indent2_lines d :
  d <> [] ->
  split_lines (json_dumps (Some 2%nat) d)
  = lit "{" :: pretty_lines (map json_item d) ++ [lit "}"].
Proof.
  intros Hd. destruct d as [|kv d]; [congruence|].
  change (json_dumps (Some 2%nat) (kv :: d))
    with (lit "{" ++ newline ::
            (lit "  " ++ join (lit "," ++ newline :: lit "  ")
                              (map json_item (kv :: d))
               ++ [newline] ++ lit "}")).
  rewrite split_lines_app by reflexivity.
  f_equal. apply split_lines_items.
  - discriminate.
  - apply Forall_forall. intros x Hx. apply in_map_iff in Hx.
    destruct Hx as (kv' & <- & _). apply json_item_printable.
Qed.

(** The example of the specification: [sample.ddd] with the bytes
    [00 01 02 03]. *)
Example sample_run :
  main [lit "simple_dump.py"; lit "sample.ddd"] sample_world
  = (mk_result
       (print (json_dumps (Some 2%nat)
                 (success_result (lit "sample.ddd") 4 (lit "00010203"))))
       0, sample_world).
Proof. reflexivity. Qed.

Example sample_run_lines :
  split_lines (stdout (fst (main [lit "simple_dump.py"; lit "sample.ddd"]
                                 sample_world)))
  = [ lit "{";
      lit "  " ++ json_str (lit "title") ++ lit ": "
        ++ json_str (lit "Report from Python Parser") ++ lit ",";
      lit "  " ++ json_str (lit "filename") ++ lit ": "
        ++ json_str (lit "sample.ddd") ++ lit ",";
      lit "  " ++ json_str (lit "format") ++ lit ": "
        ++ json_str (lit "DDD") ++ lit ",";
      lit "  " ++ json_str (lit "fileSize") ++ lit ": 4,";
      lit "  " ++ json_str (lit "headerHex") ++ lit ": "
        ++ json_str (lit "00010203") ++ lit ",";
      lit "  " ++ json_str (lit "message") ++ lit ": "
        ++ json_str (lit "This file was processed by the Python fallback parser.");
      lit "}";
      [] ].
Proof. reflexivity. Qed.

Example missing_file_run :
  main [lit "simple_dump.py"; lit "/no/such/file"] sample_world
  = (mk_result
       (lit "{" ++ [newline] ++ lit "  " ++ json_str (lit "error") ++ lit ": "
          ++ json_str (sample_renderer ENOENT (Some (lit "/no/such/file")))
          ++ [newline] ++ lit "}" ++ [newline])
       0, sample_world).
Proof. reflexivity. Qed.

Example empty_file_run :
  fst (parse_ddd (lit "/data/empty.ddd") sample_world)
  = inr (success_result (lit "empty.ddd") 0 []).
Proof. reflexivity. Qed.

Example directory_run :
  fst (parse_ddd (lit "/data") sample_world)
  = inr (failure_result (sample_renderer EISDIR (Some (lit "/data")))).
Proof. reflexivity. Qed.

Example permission_denied_run :
  fst (parse_ddd (lit "/data/secret.ddd") sample_world)
  = inr (failure_result
           (sample_renderer EACCES (Some (lit "/data/secret.ddd")))).
Proof. reflexivity. Qed.

Example read_error_run :
  parse_ddd (lit "/data/broken.ddd") sample_world
  = (inr (failure_result (sample_renderer EIO None)), sample_world).
Proof. reflexivity. Qed.

Example nul_path_run :
  fst (parse_ddd (lit "a" ++ [0%N] ++ lit "b") sample_world)
  = inr (failure_result (lit "embedded null byte")).
Proof. reflexivity. Qed.

Example basename_examples :
  os_path_basename (lit "/mnt/card/sample.ddd") = lit "sample.ddd" /\
  os_path_basename (lit "sample.ddd") = lit "sample.ddd" /\
  os_path_basename (lit "/mnt/card/") = [].
Proof. repeat split. Qed.

(** * Further properties of the code *)

(** ** The [filename] field *)

Lemma rfind_from_absent c p : forall i,
  existsb (N.eqb c) p = false -> rfind_from i c p = -1.
Proof.
  induction p as [|x p' IH]; intros i H; [reflexivity|].
  cbn [existsb] in H. apply orb_false_iff in H. destruct H as [Hx Hp].
  cbn [rfind_from]. cbv zeta. rewrite (IH (i + 1) Hp).
  change (0 <=? -1) with false. cbv iota.
  rewrite N.eqb_sym, Hx. reflexivity.
Qed.

Lemma rfind_from_last c a b : forall i,
  0 <= i ->
  existsb (N.eqb c) b = false ->
  rfind_from i c (a ++ c :: b) = i + Z.of_nat (length a).
Proof.
  induction a as [|x a IH]; intros i Hi Hb.
  - cbn [app rfind_from length]. cbv zeta.
    rewrite (rfind_from_absent c b (i + 1) Hb).
    change (0 <=? -1) with false. cbv iota.
    rewrite N.eqb_refl. cbn. lia.
  - cbn [app rfind_from]. cbv zeta. rewrite (IH (i + 1) ltac:(lia) Hb).
    destruct (Z.leb_spec 0 (i + 1 + Z.of_nat (length a))); [|lia].
    cbn [length]. lia.
Qed.

(** A path without a slash is its own base name. *)
Lemma os_path_basename_plain name :
  existsb (N.eqb sep) name = false -> os_path_basename name = name.
Proof.
  intros H. unfold os_path_basename, str_rfind. cbv zeta.
  now rewrite (rfind_from_absent sep name 0 H).
Qed.

(** The base name is what follows the last slash. *)
Lemma os_path_basename_after_sep dir name :
  existsb (N.eqb sep) name = false ->
  os_path_basename (dir ++ sep :: name) = name.
Proof.
  intros H. unfold os_path_basename, str_rfind. cbv zeta.
  rewrite (rfind_from_last sep dir name 0 ltac:(lia) H).
  replace (Z.to_nat (0 + Z.of_nat (length dir) + 1)) with (length dir + 1)%nat
    by lia.
  rewrite skipn_app, skipn_all2 by lia.
  replace (length dir + 1 - length dir)%nat with 1%nat by lia.
  reflexivity.
Qed.

(** Splitting a path at its last slash. *)
Lemma path_split p :
  existsb (N.eqb sep) p = false \/
  exists dir name,
    p = dir ++ sep :: name /\ existsb (N.eqb sep) name = false.
Proof.
  induction p as [|x p IH]; [now left|].
  destruct IH as [Hno|(dir & name & -> & Hn)].
  - destruct (N.eqb_spec sep x) as [<-|Hx].
    + right. exists [], p. split; [reflexivity|exact Hno].
    + left. cbn [existsb]. rewrite Hno.
      destruct (N.eqb_spec sep x); [congruence|reflexivity].
  - right. exists (x :: dir), name. split; [reflexivity|exact Hn].
Qed.

(** X1. The [filename] of a successful inspection is the part of the
    path after its last slash: it has no slash, the path is a
    directory prefix followed by it, and that prefix is empty or ends
    with a slash.  So a path without a slash is reported whole and a
    path that ends with a slash gives the empty name. *)
Theorem X1_filename_is_last_component (p : pystr) (w w' : world) (d : pydict) :
  parse_ddd p w = (inr d, w') -> ~ has_error d ->
  exists dir name,
    dict_get (lit "filename") d = Some (PyStr name) /\
    p = dir ++ name /\
    existsb (N.eqb sep) name = false /\
    (dir = [] \/ exists dir', dir = dir' ++ [sep]).
Proof.
  intros H Hn.
  destruct (parse_ddd_inspection p w) as (d0 & Hd & Hi).
  assert (d0 = d) by congruence. subst d0.
  destruct Hi as [data Hr|e He|sz e Hs Ho];
    [|destruct Hn; apply failure_has_error..].
  destruct (path_split p) as [Hno|(dir & name & -> & Hname)].
  - exists [], p. rewrite (os_path_basename_plain p Hno).
    repeat split; auto.
  - exists (dir ++ [sep]), name.
    rewrite (os_path_basename_after_sep dir name Hname).
    split; [reflexivity|]. split; [now rewrite <- app_assoc|].
    split; [exact Hname|]. right. now exists dir.
Qed.

Lemma X1_filename_is_last_component_witness :
  exists dir name,
    dict_get (lit "filename")
             (success_result (lit "empty.ddd") 0 []) = Some (PyStr name) /\
    lit "/data/empty.ddd" = dir ++ name /\
    existsb (N.eqb sep) name = false /\
    (dir = [] \/ exists dir', dir = dir' ++ [sep]).
Proof.
  apply (X1_filename_is_last_component
           (lit "/data/empty.ddd") sample_world sample_world).
  - reflexivity.
  - vm_compute. intuition discriminate.
Defined.

(** ** The characters of the output *)

Lemma printable_ascii_text s :
  forallb printable s = true -> forallb ascii_text s = true.
Proof.
  intros H. rewrite forallb_forall in *. intros c Hc.
  unfold ascii_text. now rewrite (H c Hc).
Qed.

Lemma join_ascii_text sp items :
  forallb ascii_text sp = true ->
  Forall (fun x => forallb ascii_text x = true) items ->
  forallb ascii_text (join sp items) = true.
Proof.
  intros Hsp Hall. induction Hall as [|x l Hx Hl IH]; [reflexivity|].
  destruct l as [|y l]; [exact Hx|].
  change (join sp (x :: y :: l)) with (x ++ sp ++ join sp (y :: l)).
  now rewrite !forallb_app, Hx, Hsp, IH.
Qed.

Lemma json_dumps_ascii_text indent d :
  forallb ascii_text (json_dumps indent d) = true.
Proof.
  assert (Hitems : Forall (fun x => forallb ascii_text x = true)
                          (map json_item d)).
  { apply Forall_forall. intros x Hx. apply in_map_iff in Hx.
    destruct Hx as (kv & <- & _).
    apply printable_ascii_text, json_item_printable. }
  unfold json_dumps. destruct d as [|kv d]; [reflexivity|].
  destruct indent as [n|].
  - assert (Hnl : forallb ascii_text (newline :: repeat 32%N n) = true).
    { cbn [forallb]. change (ascii_text newline) with true. cbn [andb].
      induction n as [|n IH]; [reflexivity|exact IH]. }
    cbv zeta. rewrite !forallb_app, Hnl.
    rewrite join_ascii_text; [reflexivity| |exact Hitems].
    now rewrite forallb_app, Hnl.
  - rewrite !forallb_app.
    rewrite join_ascii_text; [reflexivity|reflexivity|exact Hitems].
Qed.

(** X2. Whatever the arguments and the file system, the tool prints
    printable ASCII characters and line breaks only: every other
    character of a file name or of an error text is escaped. *)
Theorem X2_stdout_is_ascii (argv : list pystr) (w : world) :
  forallb ascii_text (stdout (fst (main argv w))) = true.
Proof.
  unfold main.
  destruct (Z.of_nat (length argv) <? 2).
  - reflexivity.
  - cbv zeta. destruct (parse_ddd (nth 1 argv []) w) as [[e|d] w'].
    + reflexivity.
    + cbn [fst stdout]. unfold print.
      now rewrite forallb_app, json_dumps_ascii_text.
Qed.

(** ** Strings come back from their JSON form *)

Lemma hexval_hexdigit k : (k < 16)%N -> hexval (hexdigit k) = Some k.
Proof.
  intros H. unfold hexdigit, hexval.
  destruct (N.ltb_spec k 10).
  - replace ((48 <=? 48 + k) && (48 + k <=? 57))%N with true.
    + f_equal. lia.
    + symmetry. apply andb_true_iff. split; apply N.leb_le; lia.
  - replace ((48 <=? 87 + k) && (87 + k <=? 57))%N with false.
    + replace ((97 <=? 87 + k) && (87 + k <=? 102))%N with true.
      * f_equal. lia.
      * symmetry. apply andb_true_iff. split; apply N.leb_le; lia.
    + symmetry. apply andb_false_iff. right. apply N.leb_gt. lia.
Qed.

Lemma hex_digits_value n :
  (n < 65536)%N ->
  (((n / 4096 mod 16 * 16 + n / 256 mod 16) * 16 + n / 16 mod 16) * 16
   + n mod 16 = n)%N.
Proof.
  intros H.
  replace (n / 4096)%N with (n / 16 / 16 / 16)%N
    by (now rewrite !N.Div0.div_div).
  replace (n / 256)%N with (n / 16 / 16)%N by (now rewrite N.Div0.div_div).
  zify. Z.to_euclidean_division_equations. lia.
Qed.

Lemma decode4_hex4 n :
  (n < 65536)%N ->
  decode4 (hexdigit (n / 4096 mod 16)) (hexdigit (n / 256 mod 16))
          (hexdigit (n / 16 mod 16)) (hexdigit (n mod 16)) = Some n.
Proof.
  intros H. unfold decode4.
  rewrite !hexval_hexdigit by (apply N.mod_lt; discriminate).
  now rewrite hex_digits_value.
Qed.

(** Bits that do not overlap add up. *)
Lemma lor_disjoint a y :
  (y < 1024)%N -> N.lor (a * 1024) y = (a * 1024 + y)%N.
Proof.
  intros Hy.
  assert (Hland : N.land (a * 1024) y = 0%N).
  { apply N.bits_inj. intros i. rewrite N.land_spec, N.bits_0.
    change 1024%N with (2 ^ 10)%N. rewrite <- N.shiftl_mul_pow2.
    destruct (N.lt_ge_cases i 10) as [Hi|Hi].
    - now rewrite N.shiftl_spec_low.
    - rewrite <- (N.mod_small y (2 ^ 10)) by exact Hy.
      rewrite N.mod_pow2_bits_high by exact Hi. apply andb_false_r. }
  rewrite <- N.lxor_lor by exact Hland.
  symmetry. now apply N.add_nocarry_lxor.
Qed.

Lemma surrogate_high c :
  (65536 <= c)%N -> (c < 1114112)%N ->
  N.lor 55296 (N.land (N.shiftr (c - 65536) 10) 1023)
  = (55296 + (c - 65536) / 1024)%N.
Proof.
  intros Hlo Hhi.
  change 1023%N with (N.ones 10). rewrite N.land_ones, N.shiftr_div_pow2.
  change (2 ^ 10)%N with 1024%N.
  assert (Hq : ((c - 65536) / 1024 < 1024)%N).
  { apply N.Div0.div_lt_upper_bound. lia. }
  rewrite N.mod_small by exact Hq.
  apply (lor_disjoint 54 _ Hq).
Qed.

Lemma surrogate_low c :
  N.lor 56320 (N.land (c - 65536) 1023)
  = (56320 + (c - 65536) mod 1024)%N.
Proof.
  change 1023%N with (N.ones 10). rewrite N.land_ones.
  change (2 ^ 10)%N with 1024%N.
  apply (lor_disjoint 55). apply N.mod_lt. discriminate.
Qed.

Lemma surrogate_combine hi lo :
  (lo < 1024)%N ->
  (65536 + N.lor (N.shiftl (55296 + hi - 55296) 10) (56320 + lo - 56320)
   = 65536 + hi * 1024 + lo)%N.
Proof.
  intros Hl.
  replace (55296 + hi - 55296)%N with hi by lia.
  replace (56320 + lo - 56320)%N with lo by lia.
  rewrite N.shiftl_mul_pow2. change (2 ^ 10)%N with 1024%N.
  rewrite lor_disjoint by exact Hl. lia.
Qed.

(** One step of the scanner for each kind of escape. *)
Lemma scanstring_unescape esc ch r :
  (esc =? 117)%N = false -> unescape esc = Some ch ->
  scanstring (backslash :: esc :: r) = push ch (scanstring r).
Proof.
  intros Hu He. cbn [scanstring].
  change (backslash =? dquote)%N with false.
  change (backslash =? backslash)%N with true. cbv iota.
  now rewrite Hu, He.
Qed.

Lemma scanstring_u h1 h2 h3 h4 uni r :
  decode4 h1 h2 h3 h4 = Some uni -> is_high_surrogate uni = false ->
  scanstring (backslash :: 117%N :: h1 :: h2 :: h3 :: h4 :: r)
  = push uni (scanstring r).
Proof.
  intros Hd Hh. cbn [scanstring].
  change (backslash =? dquote)%N with false.
  change (backslash =? backslash)%N with true.
  change (117 =? 117)%N with true. cbv iota.
  now rewrite Hd, Hh.
Qed.

Lemma scanstring_pair h1 h2 h3 h4 l1 l2 l3 l4 hi lo r :
  decode4 h1 h2 h3 h4 = Some hi -> is_high_surrogate hi = true ->
  decode4 l1 l2 l3 l4 = Some lo -> is_low_surrogate lo = true ->
  scanstring (backslash :: 117%N :: h1 :: h2 :: h3 :: h4
                :: backslash :: 117%N :: l1 :: l2 :: l3 :: l4 :: r)
  = push (65536 + N.lor (N.shiftl (hi - 55296) 10) (lo - 56320))%N
         (scanstring r).
Proof.
  intros Hd Hh Hd2 Hl.
  remember (scanstring r) as res.
  cbn [scanstring].
  change (backslash =? dquote)%N with false.
  change (backslash =? backslash)%N with true.
  change (117 =? 117)%N with true. cbv iota.
  rewrite Hd, Hh. cbn [andb]. rewrite Hd2, Hl. now subst res.
Qed.

Lemma scanstring_literal c r :
  (c =? dquote)%N = false -> (c =? backslash)%N = false -> (32 <= c)%N ->
  scanstring (c :: r) = push c (scanstring r).
Proof.
  intros Hq Hb Hc. cbn [scanstring]. rewrite Hq, Hb.
  destruct (N.ltb_spec c 32); [lia|reflexivity].
Qed.

Lemma scanstring_escape c tail :
  scalar_ok c = true ->
  scanstring (json_escape c ++ tail) = push c (scanstring tail).
Proof.
  intros Hok. unfold scalar_ok in Hok. apply andb_true_iff in Hok.
  destruct Hok as [Hmax Hnh]. apply N.ltb_lt in Hmax.
  apply negb_true_iff in Hnh.
  unfold json_escape.
  destruct (c =? dquote)%N eqn:Hq.
  { apply N.eqb_eq in Hq. subst c. now apply scanstring_unescape. }
  destruct (c =? backslash)%N eqn:Hb.
  { apply N.eqb_eq in Hb. subst c. now apply scanstring_unescape. }
  destruct (N.eqb_spec c 10) as [->|_]; [now apply scanstring_unescape|].
  destruct (N.eqb_spec c 13) as [->|_]; [now apply scanstring_unescape|].
  destruct (N.eqb_spec c 9) as [->|_]; [now apply scanstring_unescape|].
  destruct (N.eqb_spec c 12) as [->|_]; [now apply scanstring_unescape|].
  destruct (N.eqb_spec c 8) as [->|_]; [now apply scanstring_unescape|].
  destruct ((32 <=? c)%N && (c <=? 126)%N) eqn:Hp.
  { apply andb_true_iff in Hp. destruct Hp as [H32 _]. apply N.leb_le in H32.
    cbn [app]. now apply scanstring_literal. }
  destruct (N.ltb_spec c 65536) as [Hbmp|Hastral].
  - unfold hex4. cbn [app].
    apply scanstring_u; [now apply decode4_hex4|exact Hnh].
  - cbv zeta. rewrite (surrogate_high c Hastral Hmax), (surrogate_low c).
    set (hi := ((c - 65536) / 1024)%N).
    set (lo := ((c - 65536) mod 1024)%N).
    assert (Hhi : (hi < 1024)%N).
    { apply N.Div0.div_lt_upper_bound. lia. }
    assert (Hlo : (lo < 1024)%N) by (apply N.mod_lt; discriminate).
    unfold hex4. cbn [app].
    rewrite (scanstring_pair _ _ _ _ _ _ _ _ (55296 + hi) (56320 + lo))%N.
    + rewrite (surrogate_combine hi lo Hlo). f_equal.
      pose proof (N.div_mod (c - 65536) 1024 ltac:(discriminate)) as Hdm.
      fold hi lo in Hdm. lia.
    + apply decode4_hex4. lia.
    + unfold is_high_surrogate. apply andb_true_iff.
      split; apply N.leb_le; lia.
    + apply decode4_hex4. lia.
    + unfold is_low_surrogate. apply andb_true_iff.
      split; apply N.leb_le; lia.
Qed.

(** The scanner undoes the encoder, up to the closing quote. *)
Lemma scanstring_flat_map s rest :
  forallb scalar_ok s = true ->
  scanstring (flat_map json_escape s ++ dquote :: rest) = Some (s, rest).
Proof.
  induction s as [|c s IH]; intros H.
  - cbn [flat_map app scanstring]. now rewrite N.eqb_refl.
  - cbn [forallb] in H. apply andb_true_iff in H. destruct H as [Hc Hs].
    cbn [flat_map]. rewrite <- app_assoc.
    rewrite (scanstring_escape c _ Hc), (IH Hs). reflexivity.
Qed.

(** ** Integers come back from their decimal form *)

Lemma scan_digits_stop acc rest :
  no_digit_ahead rest = true -> scan_digits acc rest = (acc, rest).
Proof.
  destruct rest as [|c r]; [reflexivity|].
  cbn [no_digit_ahead scan_digits]. intros H.
  apply negb_true_iff in H. now rewrite H.
Qed.

Lemma scan_digits_digit c acc tail :
  is_digit c = true ->
  scan_digits acc (c :: tail) = scan_digits (10 * acc + Z.of_N (c - 48)) tail.
Proof. intros H. cbn [scan_digits]. now rewrite H. Qed.

Lemma lit_cons a s : lit (String.String a s) = Ascii.N_of_ascii a :: lit s.
Proof. reflexivity. Qed.

(** Reads the digit at the head and evaluates what it adds. *)
Ltac read_digit :=
  rewrite lit_cons; cbn [app];
  rewrite scan_digits_digit by reflexivity;
  match goal with
  | |- context [Z.of_N ?x] =>
      let v := eval vm_compute in (Z.of_N x) in change (Z.of_N x) with v
  end.

Lemma scan_digits_uint_acc d : forall acc rest,
  no_digit_ahead rest = true ->
  scan_digits (Z.pos acc) (lit (DecimalString.NilEmpty.string_of_uint d) ++ rest)
  = (Z.pos (Pos.of_uint_acc d acc), rest).
Proof.
  induction d; intros acc rest Hr;
    [now apply scan_digits_stop|..];
    cbn [DecimalString.NilEmpty.string_of_uint Pos.of_uint_acc];
    read_digit; rewrite <- (IHd _ rest Hr); f_equal; lia.
Qed.

Lemma scan_digits_uint d : forall rest,
  no_digit_ahead rest = true ->
  scan_digits 0 (lit (DecimalString.NilEmpty.string_of_uint d) ++ rest)
  = (Z.of_uint d, rest).
Proof.
  unfold Z.of_uint.
  induction d; intros rest Hr;
    [now apply scan_digits_stop|..];
    cbn [DecimalString.NilEmpty.string_of_uint Pos.of_uint];
    read_digit;
    [exact (IHd rest Hr)|..];
    cbn [Z.mul Z.add Z.of_N]; apply (scan_digits_uint_acc d _ rest Hr).
Qed.

Lemma scan_digits_uint_zero d rest :
  no_digit_ahead rest = true ->
  scan_digits 0 (lit (DecimalString.NilZero.string_of_uint d) ++ rest)
  = (Z.of_uint d, rest).
Proof.
  intros Hr. destruct d; [|apply (scan_digits_uint (_ d) rest Hr)..].
  cbv beta iota delta [DecimalString.NilZero.string_of_uint].
  read_digit. now apply scan_digits_stop.
Qed.

(** The first character of a number without sign is a digit. *)
Lemma uint_zero_head d :
  exists c tail,
    lit (DecimalString.NilZero.string_of_uint d) = c :: tail /\
    is_digit c = true.
Proof. destruct d; eexists; eexists; (split; [apply lit_cons|reflexivity]). Qed.

Lemma scan_int_decimal d rest :
  no_digit_ahead rest = true ->
  scan_int (lit (DecimalString.NilZero.string_of_int d) ++ rest)
  = Some (Z.of_int d, rest).
Proof.
  intros Hr. destruct d as [d|d]; cbn [DecimalString.NilZero.string_of_int Z.of_int].
  - pose proof (scan_digits_uint_zero d rest Hr) as Hs.
    destruct (uint_zero_head d) as (c & tail & Hc & Hd).
    rewrite Hc in *. cbn [app scan_int].
    assert (Hm : (c =? 45)%N = false).
    { unfold is_digit in Hd. apply andb_true_iff in Hd. destruct Hd as [Hd _].
      apply N.leb_le in Hd. apply N.eqb_neq. lia. }
    rewrite Hm, Hd. cbn [app] in Hs. now rewrite Hs.
  - pose proof (scan_digits_uint_zero d rest Hr) as Hs.
    destruct (uint_zero_head d) as (c & tail & Hc & Hd).
    rewrite lit_cons. rewrite Hc in *.
    match goal with
    | |- context [Ascii.N_of_ascii ?a] =>
        let v := eval vm_compute in (Ascii.N_of_ascii a) in
        change (Ascii.N_of_ascii a) with v
    end.
    cbn [app scan_int]. change (45 =? 45)%N with true. cbv iota.
    rewrite Hd. cbn [app] in Hs. now rewrite Hs.
Qed.

Lemma scan_int_repr n rest :
  no_digit_ahead rest = true ->
  scan_int (int_repr n ++ rest) = Some (n, rest).
Proof.
  intros Hr. unfold int_repr.
  rewrite (scan_int_decimal (Z.to_int n) rest Hr).
  now rewrite DecimalZ.of_to.
Qed.

(** ** The printed object comes back as the dict *)

Lemma skip_ws_stop c r : is_ws c = false -> skip_ws (c :: r) = c :: r.
Proof. intros H. cbn [skip_ws]. now rewrite H. Qed.

Lemma skip_ws_app ws x :
  forallb is_ws ws = true -> skip_ws (ws ++ x) = skip_ws x.
Proof.
  induction ws as [|c ws IH]; intros H; [reflexivity|].
  cbn [forallb] in H. apply andb_true_iff in H. destruct H as [Hc Hws].
  cbn [app skip_ws]. rewrite Hc. exact (IH Hws).
Qed.

Lemma ws_not_digit c : is_ws c = true -> is_digit c = false.
Proof.
  unfold is_ws. rewrite !orb_true_iff, !N.eqb_eq.
  intros [[[->| ->]| ->]| ->]; reflexivity.
Qed.

Lemma no_digit_after_ws ws c rest :
  forallb is_ws ws = true -> is_digit c = false ->
  no_digit_ahead (ws ++ c :: rest) = true.
Proof.
  destruct ws as [|x ws]; intros Hws Hc; cbn [app no_digit_ahead].
  - now rewrite Hc.
  - cbn [forallb] in Hws. apply andb_true_iff in Hws.
    now rewrite (ws_not_digit x (proj1 Hws)).
Qed.

Lemma json_str_scan s rest :
  forallb scalar_ok s = true ->
  exists tail,
    json_str s ++ rest = dquote :: tail /\ scanstring tail = Some (s, rest).
Proof.
  intros H. exists (flat_map json_escape s ++ dquote :: rest). split.
  - unfold json_str. cbn [app]. now rewrite <- app_assoc.
  - now apply scanstring_flat_map.
Qed.

Lemma not_ws_above c : (33 <= c)%N -> is_ws c = false.
Proof.
  intros H. unfold is_ws. rewrite !orb_false_iff, !N.eqb_neq. lia.
Qed.

Lemma int_repr_head n :
  exists c tail,
    int_repr n = c :: tail /\ (c =? dquote)%N = false /\ is_ws c = false.
Proof.
  unfold int_repr, DecimalString.NilZero.string_of_int.
  destruct (Z.to_int n) as [d|d].
  - destruct (uint_zero_head d) as (c & tail & Hc & Hd).
    exists c, tail. split; [exact Hc|].
    unfold is_digit in Hd. apply andb_true_iff in Hd. destruct Hd as [Hd _].
    apply N.leb_le in Hd. split.
    + apply N.eqb_neq. unfold dquote. lia.
    + apply not_ws_above. lia.
  - rewrite lit_cons. eexists; eexists. repeat split; reflexivity.
Qed.

Lemma scan_value_json v rest :
  match v with PyStr s => forallb scalar_ok s | PyInt _ => true end = true ->
  no_digit_ahead rest = true ->
  scan_value (json_value v ++ rest) = Some (v, rest).
Proof.
  intros Hv Hr. destruct v as [s|n]; cbn [json_value].
  - destruct (json_str_scan s rest Hv) as (tail & -> & Ht).
    cbn [scan_value]. now rewrite N.eqb_refl, Ht.
  - pose proof (scan_int_repr n rest Hr) as Hs.
    destruct (int_repr_head n) as (c & tail & Hc & Hq & _).
    rewrite Hc in *. cbn [app scan_value] in *. now rewrite Hq, Hs.
Qed.

Lemma scan_item_json kv rest :
  forallb scalar_ok (fst kv)
  && match snd kv with PyStr s => forallb scalar_ok s | PyInt _ => true end
  = true ->
  no_digit_ahead rest = true ->
  scan_item (json_item kv ++ rest) = Some (kv, rest).
Proof.
  intros Hkv Hr. apply andb_true_iff in Hkv. destruct Hkv as [Hk Hv].
  destruct kv as [k v]. cbn [fst snd] in *.
  unfold json_item. cbn [fst snd]. rewrite <- !app_assoc.
  destruct (json_str_scan k (key_separator ++ json_value v ++ rest) Hk)
    as (tail & -> & Ht).
  cbn [scan_item]. rewrite N.eqb_refl, Ht.
  change (key_separator ++ json_value v ++ rest)
    with (58%N :: 32%N :: (json_value v ++ rest)).
  rewrite skip_ws_stop by reflexivity.
  change (58 =? 58)%N with true. cbv iota.
  cbn [skip_ws]. change (is_ws 32) with true. cbv iota.
  assert (Hhead : exists c tl, json_value v ++ rest = c :: tl /\ is_ws c = false).
  { destruct v as [s|n]; cbn [json_value].
    - eexists; eexists. split; reflexivity.
    - destruct (int_repr_head n) as (c & tl & -> & _ & Hw).
      exists c, (tl ++ rest). now split. }
  destruct Hhead as (c & tl & Hc & Hw).
  rewrite Hc, (skip_ws_stop c tl Hw), <- Hc.
  now rewrite (scan_value_json v rest Hv Hr).
Qed.

Lemma json_item_head kv x :
  exists tail, json_item kv ++ x = dquote :: tail.
Proof. eexists. reflexivity. Qed.

Lemma join_items_head sp kv d x :
  exists tail, join sp (map json_item (kv :: d)) ++ x = dquote :: tail.
Proof. destruct d; eexists; reflexivity. Qed.

Lemma scan_items_join ws1 ws2 rest :
  forallb is_ws ws1 = true -> forallb is_ws ws2 = true ->
  forall d fuel,
    d <> [] -> (length d <= fuel)%nat -> dict_ok d = true ->
    scan_items fuel
      (join (44%N :: ws1) (map json_item d) ++ ws2 ++ 125%N :: rest)
    = Some (d, rest).
Proof.
  intros Hw1 Hw2. induction d as [|kv d IH]; intros fuel Hne Hfuel Hok;
    [congruence|].
  destruct fuel as [|fuel]; [cbn [length] in Hfuel; lia|].
  cbn [dict_ok forallb] in Hok. apply andb_true_iff in Hok.
  destruct Hok as [Hkv Hd].
  destruct d as [|kv2 d].
  - cbn [map join scan_items].
    rewrite (scan_item_json kv _ Hkv)
      by (now apply no_digit_after_ws).
    rewrite skip_ws_app by exact Hw2.
    rewrite skip_ws_stop by reflexivity. reflexivity.
  - change (join (44%N :: ws1) (map json_item (kv :: kv2 :: d)))
      with (json_item kv ++ (44%N :: ws1)
              ++ join (44%N :: ws1) (map json_item (kv2 :: d))).
    rewrite <- !app_assoc. cbn [scan_items].
    rewrite (scan_item_json kv _ Hkv) by reflexivity.
    cbn [app]. rewrite skip_ws_stop by reflexivity.
    change (44 =? 44)%N with true. cbv iota.
    rewrite skip_ws_app by exact Hw1.
    destruct (join_items_head (44%N :: ws1) kv2 d (ws2 ++ 125%N :: rest))
      as (tail & Ht).
    rewrite Ht, skip_ws_stop by reflexivity. rewrite <- Ht.
    rewrite (IH fuel); [reflexivity|discriminate| |exact Hd].
    cbn [length] in *. lia.
Qed.

Lemma join_length sp (items : list pystr) :
  Forall (fun x => x <> []) items ->
  (length items <= length (join sp items))%nat.
Proof.
  induction 1 as [|x l Hx Hl IH]; [apply Nat.le_refl|].
  destruct l as [|y l].
  - cbn [join length]. destruct x; [congruence|cbn [length]; lia].
  - change (join sp (x :: y :: l)) with (x ++ sp ++ join sp (y :: l)).
    rewrite !length_app. destruct x; [congruence|].
    cbn [length] in *. lia.
Qed.

Lemma json_dumps_length indent d :
  (length d <= length (json_dumps indent d))%nat.
Proof.
  assert (H : (length d <= length (join (match indent with
                                         | None => lit ", "
                                         | Some n => lit "," ++ newline :: repeat 32%N n
                                         end) (map json_item d)))%nat).
  { rewrite <- (length_map json_item d) at 1. apply join_length.
    apply Forall_forall. intros x Hx. apply in_map_iff in Hx.
    destruct Hx as (kv & <- & _). discriminate. }
  unfold json_dumps. destruct d as [|kv d]; [cbn; lia|].
  destruct indent as [n|]; cbv zeta; rewrite !length_app; lia.
Qed.

Lemma repeat_space_ws n : forallb is_ws (repeat 32%N n) = true.
Proof. induction n as [|n IH]; [reflexivity|exact IH]. Qed.

(** What [print] writes for a dict is read back as the dict. *)
Lemma json_loads_print indent d :
  dict_ok d = true -> json_loads (print (json_dumps indent d)) = Some d.
Proof.
  intros Hok. unfold json_loads.
  pose proof (json_dumps_length indent d) as Hlen.
  assert (Hfuel : (length d <= length (print (json_dumps indent d)))%nat).
  { unfold print. rewrite length_app. lia. }
  revert Hfuel. generalize (length (print (json_dumps indent d))) as fuel.
  intros fuel Hfuel. clear Hlen.
  unfold print, json_dumps.
  destruct d as [|kv d]; [reflexivity|].
  destruct indent as [n|]; cbv zeta.
  - change (lit "{") with [123%N]. change (lit "}") with [125%N].
    change (lit "," ++ newline :: repeat 32%N n)
      with (44%N :: newline :: repeat 32%N n).
    rewrite <- !app_assoc. cbn [app].
    rewrite skip_ws_stop by reflexivity.
    change (123 =? 123)%N with true. cbv iota.
    cbn [skip_ws]. change (is_ws newline) with true. cbv iota.
    rewrite skip_ws_app by apply repeat_space_ws.
    destruct (join_items_head (44%N :: newline :: repeat 32%N n) kv d
                (newline :: 125%N :: [newline])) as (tail & Ht).
    rewrite Ht, skip_ws_stop by reflexivity.
    change (dquote =? 125)%N with false. cbv iota. rewrite <- Ht.
    rewrite (scan_items_join (newline :: repeat 32%N n) [newline] [newline]);
      [reflexivity|apply (repeat_space_ws n)|reflexivity|discriminate
      |exact Hfuel|exact Hok].
  - change (lit "{") with [123%N]. change (lit "}") with [125%N].
    change (lit ", ") with [44%N; 32%N].
    rewrite <- !app_assoc. cbn [app].
    rewrite skip_ws_stop by reflexivity.
    change (123 =? 123)%N with true. cbv iota.
    destruct (join_items_head [44%N; 32%N] kv d (125%N :: [newline]))
      as (tail & Ht).
    rewrite Ht, skip_ws_stop by reflexivity.
    change (dquote =? 125)%N with false. cbv iota. rewrite <- Ht.
    rewrite (scan_items_join [32%N] [] [newline]);
      [reflexivity|reflexivity|reflexivity|discriminate|exact Hfuel|exact Hok].
Qed.

(** ** The text of the output *)

Lemma json_escape_plain c :
  printable c && negb (c =? dquote)%N && negb (c =? backslash)%N = true ->
  json_escape c = [c].
Proof.
  intros H. apply andb_true_iff in H. destruct H as [H Hb].
  apply andb_true_iff in H. destruct H as [Hp Hq].
  apply negb_true_iff in Hb, Hq.
  unfold json_escape. rewrite Hq, Hb.
  unfold printable in Hp. pose proof Hp as Hp'.
  apply andb_true_iff in Hp'. destruct Hp' as [H32 _]. apply N.leb_le in H32.
  repeat match goal with
         | |- context [(c =? ?k)%N] =>
             destruct (N.eqb_spec c k); [lia|]
         end.
  now rewrite Hp.
Qed.

Lemma json_str_plain s : plain s = true -> json_str s = quoted s.
Proof.
  intros H. unfold json_str, quoted. cbn [app]. do 2 f_equal.
  induction s as [|c s IH]; [reflexivity|].
  cbn [plain forallb] in H. apply andb_true_iff in H. destruct H as [Hc Hs].
  cbn [flat_map]. rewrite (json_escape_plain c Hc), (IH Hs). reflexivity.
Qed.

Lemma lower_hex_plain s : forallb is_lower_hex s = true -> plain s = true.
Proof.
  intros H. unfold plain. rewrite forallb_forall in *. intros c Hc.
  specialize (H c Hc). unfold is_lower_hex in H. apply orb_true_iff in H.
  rewrite !andb_true_iff, !N.leb_le in H.
  unfold printable, dquote, backslash.
  rewrite !andb_true_iff, !negb_true_iff, !N.leb_le, !N.eqb_neq. lia.
Qed.

Lemma print_failure_text msg :
  plain msg = true ->
  print (json_dumps (Some 2%nat) (failure_result msg)) = failure_text msg.
Proof.
  intros H. unfold print, json_dumps, failure_result, failure_text, json_item.
  cbn [map join fst snd json_value].
  rewrite (json_str_plain msg H), (json_str_plain (lit "error")) by reflexivity.
  rewrite <- !app_assoc. reflexivity.
Qed.

Lemma print_success_text fn sz hx :
  plain fn = true -> plain hx = true ->
  print (json_dumps (Some 2%nat) (success_result fn sz hx))
  = success_text fn sz hx.
Proof.
  intros Hfn Hhx.
  unfold print, json_dumps, success_result, success_text, json_item.
  cbn [map join fst snd json_value].
  rewrite (json_str_plain fn Hfn), (json_str_plain hx Hhx).
  rewrite !(json_str_plain (lit _)) by reflexivity.
  rewrite <- !app_assoc. reflexivity.
Qed.

Lemma inspection_header p w d fn sz hx :
  inspection p w d -> d = success_result fn sz hx ->
  exists bs, hx = bytes_hex bs.
Proof.
  intros [st data Hr|e He|sz' e Hs Ho] Heq;
    unfold success_result, failure_result in Heq; try discriminate.
  injection Heq as _ _ <-. eexists. reflexivity.
Qed.

(** C7. With at least one argument the tool exits with status 0 and
    prints the result of [parse_ddd], success-shaped or failure-shaped,
    as JSON with an indentation of two spaces: an opening brace, one
    line per field indented by two spaces with a comma after every
    field but the last, and a closing brace.  For strings that need no
    escape the text is given character by character, with every field
    of the result in it; and in every case a JSON decoder reads the
    text back as the result. *)
Theorem C7_with_argument (argv : list pystr) (w : world) :
  (2 <= length argv)%nat ->
  exists d,
    parse_ddd (nth 1 argv []) w = (inr d, w) /\
    main argv w = (mk_result (print (json_dumps (Some 2%nat) d)) 0, w) /\
    split_lines (json_dumps (Some 2%nat) d)
    = lit "{" :: pretty_lines (map json_item d) ++ [lit "}"] /\
    exit_code (fst (main argv w)) = 0 /\
    (forall msg,
        d = failure_result msg -> plain msg = true ->
        stdout (fst (main argv w)) = failure_text msg) /\
    (forall fn sz hx,
        d = success_result fn sz hx -> plain fn = true ->
        stdout (fst (main argv w)) = success_text fn sz hx) /\
    (dict_ok d = true ->
     json_loads (stdout (fst (main argv w))) = Some d).
Proof.
  intros H.
  destruct (parse_ddd_inspection (nth 1 argv []) w) as (d & Hd & Hi).
  assert (Hmain : main argv w
                  = (mk_result (print (json_dumps (Some 2%nat) d)) 0, w)).
  { unfold main.
    destruct (Z.ltb_spec (Z.of_nat (length argv)) 2); [lia|].
    cbv zeta. now rewrite Hd. }
  exists d. split; [exact Hd|]. split; [exact Hmain|].
  rewrite Hmain. cbn [fst stdout exit_code].
  split.
  { apply json_dumps_indent2_lines.
    destruct (inspection_shapes _ _ _ Hi) as [(fn & sz & hx & ->)|[msg ->]];
      discriminate. }
  split; [reflexivity|]. split; [|split].
  - intros msg -> Hp. now apply print_failure_text.
  - intros fn sz hx Heq Hp. subst d.
    apply print_success_text; [exact Hp|].
    destruct (inspection_header _ _ _ _ _ _ Hi eq_refl) as [bs ->].
    apply lower_hex_plain, bytes_hex_lower.
  - intros Hok. now apply json_loads_print.
Qed.

Lemma C7_with_argument_witness :
  exists d,
    parse_ddd (lit "sample.ddd") sample_world = (inr d, sample_world) /\
    main [lit "simple_dump.py"; lit "sample.ddd"] sample_world
    = (mk_result (print (json_dumps (Some 2%nat) d)) 0, sample_world) /\
    split_lines (json_dumps (Some 2%nat) d)
    = lit "{" :: pretty_lines (map json_item d) ++ [lit "}"] /\
    exit_code (fst (main [lit "simple_dump.py"; lit "sample.ddd"] sample_world))
    = 0 /\
    (forall msg,
        d = failure_result msg -> plain msg = true ->
        stdout (fst (main [lit "simple_dump.py"; lit "sample.ddd"] sample_world))
        = failure_text msg) /\
    (forall fn sz hx,
        d = success_result fn sz hx -> plain fn = true ->
        stdout (fst (main [lit "simple_dump.py"; lit "sample.ddd"] sample_world))
        = success_text fn sz hx) /\
    (dict_ok d = true ->
     json_loads
       (stdout (fst (main [lit "simple_dump.py"; lit "sample.ddd"] sample_world)))
     = Some d).
Proof.
  apply (C7_with_argument [lit "simple_dump.py"; lit "sample.ddd"] sample_world).
  simpl. lia.
Defined.

(** The text for the example of the specification and for a missing
    file, as the tool prints them. *)
Example sample_text :
  stdout (fst (main [lit "simple_dump.py"; lit "sample.ddd"] sample_world))
  = success_text (lit "sample.ddd") 4 (lit "00010203").
Proof. reflexivity. Qed.

Example proc_version_text :
  stdout (fst (main [lit "simple_dump.py"; lit "/proc/version"] proc_world))
  = success_text (lit "version") 0 (lit "4c696e75782076657273696f6e20362e").
Proof. reflexivity. Qed.

Lemma skipn_forallb {A} (f : A -> bool) n (l : list A) :
  forallb f l = true -> forallb f (skipn n l) = true.
Proof.
  revert l. induction n as [|n IH]; intros l H; [exact H|].
  destruct l as [|x l]; [reflexivity|].
  cbn [forallb] in H. apply andb_true_iff in H. apply (IH l (proj2 H)).
Qed.

Lemma lower_hex_scalar_ok s :
  forallb is_lower_hex s = true -> forallb scalar_ok s = true.
Proof.
  intros H. rewrite forallb_forall in *. intros c Hc.
  specialize (H c Hc). unfold is_lower_hex in H.
  unfold scalar_ok, is_high_surrogate.
  apply orb_true_iff in H.
  rewrite !andb_true_iff, !N.leb_le in H.
  apply andb_true_iff. split.
  - apply N.ltb_lt. lia.
  - apply negb_true_iff, andb_false_iff. left. apply N.leb_gt. lia.
Qed.

Lemma success_result_ok fn sz bs :
  forallb scalar_ok fn = true ->
  dict_ok (success_result fn sz (bytes_hex bs)) = true.
Proof.
  intros Hfn. unfold dict_ok, success_result. cbn [forallb fst snd].
  rewrite Hfn, (lower_hex_scalar_ok _ (bytes_hex_lower bs)). reflexivity.
Qed.

(** X3. What the tool prints is read back by a JSON decoder as the
    very dict it printed, provided the strings in it are made of
    Unicode code points and none is a high surrogate.  Without an
    argument that is the dict with the one field [error]; for a
    readable file whose path has no such character it is the
    success-shaped dict with the base name, the size [stat] reports
    (for an ordinary file the length of its content) and the header
    of the file. *)
Theorem X3_stdout_reads_back :
  (forall (argv : list pystr) w,
      (length argv < 2)%nat ->
      json_loads (stdout (fst (main argv w)))
      = Some (failure_result (lit "No file provided"))) /\
  (forall (argv : list pystr) w d w',
      (2 <= length argv)%nat ->
      parse_ddd (nth 1 argv []) w = (inr d, w') ->
      dict_ok d = true ->
      json_loads (stdout (fst (main argv w))) = Some d) /\
  (forall prog p rest w st data,
      file_at w p st data ->
      forallb scalar_ok p = true ->
      json_loads (stdout (fst (main (prog :: p :: rest) w)))
      = Some (success_result (os_path_basename p) (Z.of_N st)
                             (bytes_hex (firstn 16 data)))) /\
  (forall prog p rest w data,
      file_at w p (N.of_nat (length data)) data ->
      forallb scalar_ok p = true ->
      json_loads (stdout (fst (main (prog :: p :: rest) w)))
      = Some (success_result (os_path_basename p) (Z.of_nat (length data))
                             (bytes_hex (firstn 16 data)))).
Proof.
  assert (Hgen : forall (argv : list pystr) w d w',
             (2 <= length argv)%nat ->
             parse_ddd (nth 1 argv []) w = (inr d, w') ->
             dict_ok d = true ->
             json_loads (stdout (fst (main argv w))) = Some d).
  { intros argv w d w' Hlen Hd Hok. unfold main.
    destruct (Z.ltb_spec (Z.of_nat (length argv)) 2); [lia|].
    cbv zeta. rewrite Hd. cbn [fst stdout].
    now apply json_loads_print. }
  assert (Hfile : forall prog p rest w st data,
             file_at w p st data ->
             forallb scalar_ok p = true ->
             json_loads (stdout (fst (main (prog :: p :: rest) w)))
             = Some (success_result (os_path_basename p) (Z.of_N st)
                                    (bytes_hex (firstn 16 data)))).
  { intros prog p rest w st data Hr Hp.
    apply (Hgen (prog :: p :: rest) w _ w).
    + cbn [length]. lia.
    + cbn [nth]. now apply parse_ddd_readable.
    + apply success_result_ok. unfold os_path_basename. cbv zeta.
      now apply skipn_forallb. }
  split; [|split; [exact Hgen|split; [exact Hfile|]]].
  - intros argv w Hlen. unfold main.
    destruct (Z.ltb_spec (Z.of_nat (length argv)) 2); [|lia].
    reflexivity.
  - intros prog p rest w data Hr Hp.
    rewrite (Hfile prog p rest w _ data Hr Hp).
    now rewrite nat_N_Z.
Qed.

Lemma X3_stdout_reads_back_witness :
  json_loads (stdout (fst (main [lit "simple_dump.py"] sample_world)))
  = Some (failure_result (lit "No file provided")) /\
  json_loads (stdout (fst (main [lit "simple_dump.py"; lit "/data"] sample_world)))
  = Some (failure_result (sample_renderer EISDIR (Some (lit "/data")))) /\
  json_loads (stdout (fst (main [lit "simple_dump.py"; lit "sample.ddd"] sample_world)))
  = Some (success_result (lit "sample.ddd") 4 (lit "00010203")).
Proof.
  destruct X3_stdout_reads_back as (Hnone & Hgen & Hok & _).
  split; [|split].
  - apply Hnone. simpl. lia.
  - apply (Hgen [lit "simple_dump.py"; lit "/data"] sample_world _ sample_world).
    + simpl. lia.
    + reflexivity.
    + reflexivity.
  - apply (Hok (lit "simple_dump.py") (lit "sample.ddd") [] sample_world
               4%N [x00; x01; x02; x03]).
    + repeat split. discriminate.
    + reflexivity.
Defined.

(** Why high surrogates are left out: the escapes of a high and a low
    surrogate that stand side by side in a string are the escape of
    one character beyond the basic plane, so two file names are printed
    alike and the decoder returns the second. *)
Example surrogate_pair_collision :
  json_str [55357%N; 56832%N] = json_str [128512%N] /\
  json_loads (print (json_dumps (Some 2%nat)
                       (failure_result [55357%N; 56832%N])))
  = Some (failure_result [128512%N]).
Proof. split; reflexivity. Qed.

(** X4. An inspection succeeds exactly when the path leads to a
    regular file that can be opened and read: the result has no
    [error] field if and only if that is so.  In particular a
    directory, whose size can be taken, still gives an error. *)
Theorem X4_success_iff_readable (p : pystr) (w : world) :
  exists d,
    parse_ddd p w = (inr d, w) /\
    (~ has_error d <-> exists data, readable_file w p data).
Proof.
  destruct (parse_ddd_inspection p w) as (d & Hd & Hi).
  exists d. split; [exact Hd|]. split.
  - intros Hn. destruct Hi as [st data Hr|e He|sz e Hs Ho].
    + exists data. now exists st.
    + destruct Hn. apply failure_has_error.
    + destruct Hn. apply failure_has_error.
  - intros [data [st Hr]].
    rewrite (parse_ddd_readable p w st data Hr) in Hd.
    injection Hd as <-. apply success_no_error.
Qed.

(** X5. The header field tells the first 16 bytes apart: two
    readable files have the same [headerHex] exactly when their first
    16 bytes are the same, and the field never has more than 32
    characters. *)
Theorem X5_header_hex_injective
        (w1 w2 : world) (p1 p2 : pystr) (data1 data2 : bytes) :
  readable_file w1 p1 data1 -> readable_file w2 p2 data2 ->
  exists d1 d2 hx1 hx2,
    parse_ddd p1 w1 = (inr d1, w1) /\ parse_ddd p2 w2 = (inr d2, w2) /\
    dict_get (lit "headerHex") d1 = Some (PyStr hx1) /\
    dict_get (lit "headerHex") d2 = Some (PyStr hx2) /\
    (hx1 = hx2 <-> firstn 16 data1 = firstn 16 data2) /\
    (length hx1 <= 32)%nat.
Proof.
  intros [st1 H1] [st2 H2].
  exists (success_result (os_path_basename p1) (Z.of_N st1)
                         (bytes_hex (firstn 16 data1))),
         (success_result (os_path_basename p2) (Z.of_N st2)
                         (bytes_hex (firstn 16 data2))),
         (bytes_hex (firstn 16 data1)), (bytes_hex (firstn 16 data2)).
  split; [now apply parse_ddd_readable|].
  split; [now apply parse_ddd_readable|].
  split; [reflexivity|]. split; [reflexivity|]. split.
  - split.
    + intros Heq.
      pose proof (bytes_hex_roundtrip (firstn 16 data1)) as R1.
      pose proof (bytes_hex_roundtrip (firstn 16 data2)) as R2.
      rewrite Heq in R1. congruence.
    + now intros ->.
  - rewrite bytes_hex_length, length_firstn. lia.
Qed.

Lemma X5_header_hex_injective_witness :
  exists d1 d2 hx1 hx2,
    parse_ddd (lit "sample.ddd") sample_world = (inr d1, sample_world) /\
    parse_ddd (lit "/data/empty.ddd") sample_world = (inr d2, sample_world) /\
    dict_get (lit "headerHex") d1 = Some (PyStr hx1) /\
    dict_get (lit "headerHex") d2 = Some (PyStr hx2) /\
    (hx1 = hx2 <-> firstn 16 [x00; x01; x02; x03] = firstn 16 []) /\
    (length hx1 <= 32)%nat.
Proof.
  apply (X5_header_hex_injective sample_world sample_world
           (lit "sample.ddd") (lit "/data/empty.ddd")).
  - exists 4%N. repeat split. discriminate.
  - exists 0%N. repeat split. discriminate.
Defined.

(** ** Where the icons go *)

Lemma pystr_eqb_eq a : forall b, pystr_eqb a b = true <-> a = b.
Proof.
  induction a as [|x a IH]; intros [|y b]; cbn [pystr_eqb];
    try (split; [discriminate|congruence]); [tauto|].
  rewrite andb_true_iff, N.eqb_eq, IH. split.
  - now intros [-> ->].
  - intros [= -> ->]. now split.
Qed.

Lemma str_rstrip_keep c x a :
  x <> c -> str_rstrip c (a ++ [x]) = a ++ [x].
Proof.
  intros Hx. induction a as [|y a IH].
  - cbn. now destruct (N.eqb_spec x c).
  - cbn [app str_rstrip]. rewrite IH. now destruct a.
Qed.

Lemma str_rstrip_drop c a : str_rstrip c (a ++ [c]) = str_rstrip c a.
Proof.
  induction a as [|y a IH].
  - cbn. now rewrite N.eqb_refl.
  - cbn [app str_rstrip]. now rewrite IH.
Qed.

Lemma ends_without_sep dir :
  dir <> [] -> endswith_sep dir = false ->
  exists dir' x, dir = dir' ++ [x] /\ x <> sep.
Proof.
  intros Hne He. destruct (exists_last Hne) as (dir' & x & ->).
  exists dir', x. split; [reflexivity|].
  unfold endswith_sep in He. rewrite rev_unit in He.
  now apply N.eqb_neq.
Qed.

Lemma os_path_join_plain dir name :
  dir <> [] -> endswith_sep dir = false ->
  existsb (N.eqb sep) name = false ->
  os_path_join dir name = dir ++ sep :: name.
Proof.
  intros Hne He Hn. unfold os_path_join.
  assert (Hs : startswith_sep name = false).
  { destruct name as [|c name]; [reflexivity|].
    cbn [existsb] in Hn. apply orb_false_iff in Hn.
    cbn [startswith_sep]. rewrite N.eqb_sym. tauto. }
  rewrite Hs, He. destruct dir; [congruence|reflexivity].
Qed.

Lemma os_path_dirname_of_join dir name :
  dir <> [] -> endswith_sep dir = false ->
  existsb (N.eqb sep) name = false ->
  os_path_dirname (dir ++ sep :: name) = dir.
Proof.
  intros Hne He Hn.
  destruct (ends_without_sep dir Hne He) as (dir' & x & -> & Hx).
  unfold os_path_dirname, str_rfind. cbv zeta.
  rewrite (rfind_from_last sep (dir' ++ [x]) name 0 ltac:(lia) Hn).
  replace (Z.to_nat (0 + Z.of_nat (length (dir' ++ [x])) + 1))
    with (length (dir' ++ [x]) + 1)%nat by lia.
  rewrite firstn_app, firstn_all2 by lia.
  replace (length (dir' ++ [x]) + 1 - length (dir' ++ [x]))%nat
    with 1%nat by lia.
  cbn [firstn].
  assert (Hneq : pystr_eqb ((dir' ++ [x]) ++ [sep])
                   (repeat sep (length ((dir' ++ [x]) ++ [sep]))) = false).
  { destruct (pystr_eqb _ _) eqn:Heq; [|reflexivity].
    apply pystr_eqb_eq in Heq.
    assert (Hin : In x ((dir' ++ [x]) ++ [sep])).
    { apply in_or_app. left. apply in_or_app. right. now left. }
    rewrite Heq in Hin. apply repeat_spec in Hin. congruence. }
  rewrite Hneq.
  destruct ((dir' ++ [x]) ++ [sep]) eqn:Hd.
  { destruct dir'; discriminate. }
  rewrite <- Hd. cbn [negb andb].
  rewrite str_rstrip_drop. now apply str_rstrip_keep.
Qed.

(** Settles what is asked of a run once every test of [save_icon] has
    been decided. *)
Ltac run_cases :=
  cbn [raised carried_out];
  repeat match goal with
         | |- _ /\ _ => split
         | |- _ <-> _ => split
         | |- forall _, _ => intro
         | H : _ /\ _ |- _ => destruct H
         | H : _ \/ _ |- _ => destruct H
         | H : exists _, _ |- _ => destruct H
         | H : forall op, In op ?l -> _ = false, Hin : In ?o ?l |- _ =>
             pose proof (H o Hin); clear Hin
         | H : Some _ = Some _ |- _ => injection H as H; subst
         end;
  try discriminate; try congruence; auto.

(** X6. [save_icon] on a directory name joined with a file name (the
    directory not empty and not ending with a slash, the name without a
    slash).  The directory asked of [makedirs] is that directory and
    the file lies directly in it under that name.  Nothing raises
    exactly when neither creating the image, nor any drawing call,
    nor [makedirs], nor [save] raises, and then the directory is made
    and the transparent square of side [s] with the drawing on it is
    saved, in this order.  When a call raises no image has been saved;
    and when creating or drawing the image raises, the file system has
    not been asked for anything. *)
Theorem X6_save_icon_target
        (env : environment) (dir name : pystr)
        (draw_fn : draw_context -> Z -> draw_context) (s : Z) :
  dir <> [] -> endswith_sep dir = false ->
  existsb (N.eqb sep) name = false ->
  let path := os_path_join dir name in
  let img := mk_image (lit "RGBA") (s, s) (0, 0, 0, 0) (draw_fn [] s) in
  let r := save_icon env path draw_fn s in
  path = dir ++ sep :: name /\
  os_path_dirname path = dir /\
  os_path_basename path = name /\
  (raised r = None <->
   new_raises env s = false /\
   (forall op, In op (draw_fn [] s) -> draw_raises env op = false) /\
   makedirs_raises env dir = false /\
   save_raises env img path = false) /\
  (raised r = None ->
   carried_out r = [makedirs dir true; save img path]) /\
  (forall c, raised r = Some c ->
             carried_out r = [] \/
             (c = call_save path /\ carried_out r = [makedirs dir true])) /\
  (new_raises env s = true \/
   (exists op, In op (draw_fn [] s) /\ draw_raises env op = true) ->
   carried_out r = [] /\ raised r <> None).
Proof.
  intros Hne He Hn. cbv zeta.
  rewrite (os_path_join_plain dir name Hne He Hn).
  pose proof (os_path_dirname_of_join dir name Hne He Hn) as Hd.
  split; [reflexivity|]. split; [exact Hd|].
  split; [now apply os_path_basename_after_sep|].
  unfold save_icon. cbv zeta. cbn [im_mode im_size im_color im_drawn].
  rewrite Hd.
  destruct (new_raises env s) eqn:Hnew; [run_cases|].
  destruct (find (draw_raises env) (draw_fn [] s)) as [op|] eqn:Hfind.
  { apply find_some in Hfind. destruct Hfind as [Hin Hop]. run_cases. }
  pose proof (find_none _ _ Hfind) as Hdraw. cbv beta in Hdraw.
  destruct (makedirs_raises env dir) eqn:Hmk; [run_cases|].
  destruct (save_raises env _ _) eqn:Hsave; run_cases.
Qed.

Lemma X6_save_icon_target_witness :
  let path := os_path_join OUT (lit "unknown.png") in
  let img := mk_image (lit "RGBA") (24, 24) (0, 0, 0, 0) (icon_unknown [] 24) in
  let r := save_icon strict_environment path icon_unknown 24 in
  path = OUT ++ sep :: lit "unknown.png" /\
  os_path_dirname path = OUT /\
  os_path_basename path = lit "unknown.png" /\
  (raised r = None <->
   new_raises strict_environment 24 = false /\
   (forall op, In op (icon_unknown [] 24) ->
               draw_raises strict_environment op = false) /\
   makedirs_raises strict_environment OUT = false /\
   save_raises strict_environment img path = false) /\
  (raised r = None ->
   carried_out r = [makedirs OUT true; save img path]) /\
  (forall c, raised r = Some c ->
             carried_out r = [] \/
             (c = call_save path /\ carried_out r = [makedirs OUT true])) /\
  (new_raises strict_environment 24 = true \/
   (exists op, In op (icon_unknown [] 24)
               /\ draw_raises strict_environment op = true) ->
   carried_out r = [] /\ raised r <> None).
Proof.
  apply (X6_save_icon_target strict_environment OUT (lit "unknown.png")
                             icon_unknown 24).
  - discriminate.
  - reflexivity.
  - reflexivity.
Defined.

(** Three runs for the first icon of the script: with the default
    side, with a side for which the frame is inside out, and with a
    side of no pixels. *)
Example save_icon_default_run :
  save_icon strict_environment (os_path_join OUT (lit "unknown.png"))
            icon_unknown 24
  = mk_run [ makedirs OUT true;
             save (mk_image (lit "RGBA") (24, 24) (0, 0, 0, 0)
                            (icon_unknown [] 24))
                  (OUT ++ lit "/unknown.png") ]
           None.
Proof. reflexivity. Qed.

Example save_icon_small_run :
  save_icon strict_environment (os_path_join OUT (lit "unknown.png"))
            icon_unknown 4
  = mk_run []
           (Some (call_draw
                    (rounded_rectangle [3; 3; 1; 1] 3 None (Some FG) 2))).
Proof. reflexivity. Qed.

Example save_icon_empty_run :
  save_icon strict_environment (os_path_join OUT (lit "rest.png"))
            icon_rest 0
  = mk_run [makedirs OUT true]
           (Some (call_save (OUT ++ lit "/rest.png"))).
Proof. reflexivity. Qed.

(** ** The drawings *)

(** Splits membership in a list that is written out. *)
Ltac in_cases H :=
  cbn in H;
  repeat match type of H with
         | _ \/ _ => destruct H as [H|H]
         end;
  try contradiction.

(** X7. The drawings and the canvas.  Every point the four icons are
    drawn through lies on the canvas exactly when its side [s] is at
    least 21; the corners of every bounding box are in order exactly
    when [s] is at least 6; and whatever [s], every line and every
    outline is at least 2 pixels wide. *)
Theorem X7_icons_on_canvas (s : Z) :
  ((forall icon, In icon icons -> fits s icon) <-> 21 <= s) /\
  ((forall icon op, In icon icons -> In op (icon [] s) -> op_box_ordered op)
   <-> 6 <= s) /\
  (forall icon op w,
      In icon icons -> In op (icon [] s) -> op_stroke op = Some w -> 2 <= w).
Proof.
  split; [|split].
  - split.
    + intros H.
      assert (Hin : inside s (20, 18)).
      { apply (H icon_rest ltac:(right; left; reflexivity)
                 (rectangle [4; 13; 20; 18] None (Some FG) 2)).
        - left. reflexivity.
        - right. left. reflexivity. }
      unfold inside in Hin. cbn [fst snd] in Hin. lia.
    + intros Hs icon Hi op pt Hop Hpt.
      in_cases Hi; subst icon; in_cases Hop; subst op; in_cases Hpt;
        subst pt; unfold inside; cbn [fst snd]; lia.
  - split.
    + intros H.
      assert (Hb : op_box_ordered
                     (rounded_rectangle [3; 3; s - 3; s - 3] 3 None (Some FG) 2)).
      { apply (H icon_unknown); left; reflexivity. }
      cbn in Hb. lia.
    + intros Hs icon op Hi Hop.
      in_cases Hi; subst icon; in_cases Hop; subst op; cbn; try lia; exact I.
  - intros icon op w Hi Hop Hw.
    in_cases Hi; subst icon; in_cases Hop; subst op;
      cbn in Hw; try discriminate; injection Hw as <-; lia.
Qed.

Lemma X7_icons_on_canvas_witness :
  (forall icon, In icon icons -> fits 24 icon) /\
  (forall icon op, In icon icons -> In op (icon [] 24) -> op_box_ordered op).
Proof.
  destruct (X7_icons_on_canvas 24) as ((_ & Hfit) & (_ & Hbox) & _).
  split.
  - apply Hfit. lia.
  - apply Hbox. lia.
Defined.
